(** * analyze_scraper: a shallow embedding of [src/migration/analyze_scraper.py]

    The script parses one Python source file, walks its syntax tree with
    [ast.walk] and builds a report: class name, host name, one record per
    method, the imports, a complexity tier and a parsing-strategy tag.

    Layout of this development:
    - text: Python [str] values as lists of code points;
    - regular expressions: the three patterns of [extract_css_selector];
    - syntax trees: the node classes the script inspects, [iter_child_nodes]
      and the breadth-first [ast.walk];
    - the report records and the effects of the script;
    - the functions of the script and its command-line entry point;
    - the quantities the properties speak of, and sample inputs;
    - the properties. *)

From Stdlib Require Import Ascii String.
From Stdlib Require Import List Bool Arith NArith ZArith QArith Qround.
From Stdlib Require Import Lia Permutation.
Import ListNotations.

Set Implicit Arguments.
Set Warnings "-register-all".
Close Scope Q_scope.

(** ** Text *)

Module Text.

(** A Python [str] is a sequence of Unicode code points. *)
Definition char := N.
Definition str := list char.

(** Source literals are written as Rocq strings and read as code points. *)
Definition lit (s : string) : str :=
  map N_of_ascii (list_ascii_of_string s).

Fixpoint eqb (s t : str) : bool :=
  match s, t with
  | [], [] => true
  | c :: s', d :: t' => N.eqb c d && eqb s' t'
  | _, _ => false
  end.

(** [s.startswith(p)] *)
Fixpoint startswith (p s : str) : bool :=
  match p, s with
  | [], _ => true
  | c :: p', d :: s' => N.eqb c d && startswith p' s'
  | _ :: _, [] => false
  end.

(** [p in s] on strings: [p] occurs as a contiguous substring of [s]. *)
Fixpoint contains (p s : str) : bool :=
  startswith p s ||
  match s with
  | [] => false
  | _ :: s' => contains p s'
  end.

(** Truth value of a [str]: only the empty string is falsy. *)
Definition nonempty (s : str) : bool :=
  match s with [] => false | _ :: _ => true end.

(** [x in [a, b, ...]] for a list of strings. *)
Definition mem (x : str) (l : list str) : bool := existsb (eqb x) l.

Definition in_range (lo hi c : char) : bool := (N.leb lo c && N.leb c hi)%N.

Definition is_upper (c : char) : bool := in_range 65%N 90%N c.
Definition is_lower (c : char) : bool := in_range 97%N 122%N c.
Definition is_digit (c : char) : bool := in_range 48%N 57%N c.

(** The class [[a-zA-Z]]. *)
Definition is_letter (c : char) : bool := is_lower c || is_upper c.

(** The lowering of the ASCII range: the part of [str.lower] that can yield
    the letters of the two keywords searched in the file text.  Used as the
    instance of [str.lower] when functions are evaluated. *)
Definition ascii_lower (s : str) : str :=
  map (fun c => if is_upper c then (c + 32)%N else c) s.

(** The class [\w] restricted to the ASCII range: [[a-zA-Z0-9_]].  Used as
    the instance of [\w] when functions are evaluated. *)
Definition ascii_word (c : char) : bool :=
  is_letter c || is_digit c || N.eqb c 95%N.

(** [s.split("\n")] *)
Fixpoint split_lines_acc (cur : str) (s : str) : list str :=
  match s with
  | [] => [rev cur]
  | c :: s' =>
      if N.eqb c 10%N then rev cur :: split_lines_acc [] s'
      else split_lines_acc (c :: cur) s'
  end.

Definition split_lines (s : str) : list str := split_lines_acc [] s.

(** ["\n".join(ls)] *)
Fixpoint join_lines (ls : list str) : str :=
  match ls with
  | [] => []
  | [l] => l
  | l :: rest => l ++ 10%N :: join_lines rest
  end.

(** [l[i:j]] for non-negative [i], [j]. *)
Definition slice {A} (i j : nat) (l : list A) : list A :=
  firstn (j - i) (skipn i l).

End Text.

Import Text.

(** ** Regular expressions

    The three patterns of [extract_css_selector] use character classes,
    concatenation, [*], [+], [?] and a non-capturing group: they are regular,
    so [re.search] succeeds exactly when some substring of the text belongs
    to the language of the pattern.  The matcher below decides this with
    derivatives. *)

Module Regex.

Inductive regex : Type :=
| Void                              (* matches nothing *)
| Eps                               (* matches the empty string *)
| Cls (p : char -> bool)            (* one character of a class *)
| Cat (r1 r2 : regex)
| Alt (r1 r2 : regex)
| Star (r : regex).

(** [r+] and [r?] *)
Definition Plus (r : regex) : regex := Cat r (Star r).
Definition Opt (r : regex) : regex := Alt r Eps.

(** A literal character. *)
Definition Chr (a : ascii) : regex := Cls (N.eqb (N_of_ascii a)).

(** [[abc]]: a character among those of [s]. *)
Definition one_of (s : string) (c : char) : bool :=
  existsb (N.eqb c) (lit s).

(** The double quote (34) and the single quote (39). *)
Definition is_quote (c : char) : bool := N.eqb c 34%N || N.eqb c 39%N.

(** The language of a pattern. *)
Inductive matches : regex -> str -> Prop :=
| MEps : matches Eps []
| MCls p c : p c = true -> matches (Cls p) [c]
| MCat r1 r2 s1 s2 :
    matches r1 s1 -> matches r2 s2 -> matches (Cat r1 r2) (s1 ++ s2)
| MAltL r1 r2 s : matches r1 s -> matches (Alt r1 r2) s
| MAltR r1 r2 s : matches r2 s -> matches (Alt r1 r2) s
| MStar0 r : matches (Star r) []
| MStarS r s1 s2 :
    matches r s1 -> matches (Star r) s2 -> matches (Star r) (s1 ++ s2).

Fixpoint nullable (r : regex) : bool :=
  match r with
  | Void => false
  | Eps => true
  | Cls _ => false
  | Cat r1 r2 => nullable r1 && nullable r2
  | Alt r1 r2 => nullable r1 || nullable r2
  | Star _ => true
  end.

Fixpoint deriv (c : char) (r : regex) : regex :=
  match r with
  | Void => Void
  | Eps => Void
  | Cls p => if p c then Eps else Void
  | Cat r1 r2 =>
      if nullable r1 then Alt (Cat (deriv c r1) r2) (deriv c r2)
      else Cat (deriv c r1) r2
  | Alt r1 r2 => Alt (deriv c r1) (deriv c r2)
  | Star r1 => Cat (deriv c r1) (Star r1)
  end.

(** [re.match(r, s)]: some prefix of [s] is in the language of [r]. *)
Fixpoint match_prefix (r : regex) (s : str) : bool :=
  nullable r ||
  match s with
  | [] => false
  | c :: s' => match_prefix (deriv c r) s'
  end.

(** [re.search(r, s)]: some substring of [s] is in the language of [r]. *)
Fixpoint search (r : regex) (s : str) : bool :=
  match_prefix r s ||
  match s with
  | [] => false
  | _ :: s' => search r s'
  end.

End Regex.

Import Regex.

(** ** Syntax trees

    The nodes of Python's [ast] module.  The classes whose fields the script
    reads have a constructor of their own with those fields; every other
    class is a [Node] carrying its kind and its child nodes in the order of
    [ast.iter_child_nodes] (the order of the class's [_fields]). *)

Module Ast.

(** [ast.alias]: one imported name, [import a.b as c]. *)
Record alias := mkAlias { alias_name : str; asname : option str }.

(** The classes that the script only tests with [isinstance]. *)
Inductive kind :=
| Module_            (* ast.Module, the root returned by ast.parse *)
| If                 (* ast.If *)
| While              (* ast.While *)
| For                (* ast.For *)
| Try                (* ast.Try *)
| Call               (* ast.Call *)
| Other (cls : string).  (* any other class: Expr, Name, Attribute, IfExp,
                            AsyncFor, AsyncFunctionDef, ExceptHandler,
                            arguments, a Constant that is not a str, ... *)

Inductive node :=
| Import (names : list alias)
| ImportFrom (module : option str) (names : list alias) (level : nat)
| AliasNode (a : alias)
| ClassDef (name : str)
    (bases keywords body decorator_list type_params : list node)
| FunctionDef (name : str) (lineno end_lineno : nat) (args : node)
    (body decorator_list : list node) (returns : option node)
    (type_params : list node)
| Return (value : option node)
| Str (s : str)      (* ast.Str: a Constant whose value is a str *)
| Node (k : kind) (children : list node).

Definition opt_list {A} (o : option A) : list A :=
  match o with Some x => [x] | None => [] end.

(** [ast.iter_child_nodes(node)]: the direct child nodes, in field order. *)
Definition iter_child_nodes (n : node) : list node :=
  match n with
  | Import names => map AliasNode names
  | ImportFrom _ names _ => map AliasNode names
  | AliasNode _ => []
  | ClassDef _ bases keywords body decorator_list type_params =>
      bases ++ keywords ++ body ++ decorator_list ++ type_params
  | FunctionDef _ _ _ args body decorator_list returns type_params =>
      args :: body ++ decorator_list ++ opt_list returns ++ type_params
  | Return value => opt_list value
  | Str _ => []
  | Node _ children => children
  end.

(** Number of nodes of a tree. *)
Fixpoint size (n : node) : nat :=
  let sizes := fix sizes (l : list node) : nat :=
    match l with [] => 0 | x :: r => size x + sizes r end in
  let osize := fun o : option node =>
    match o with Some x => size x | None => 0 end in
  match n with
  | Import names => S (length names)
  | ImportFrom _ names _ => S (length names)
  | AliasNode _ => 1
  | ClassDef _ bases keywords body decorator_list type_params =>
      S (sizes bases + sizes keywords + sizes body + sizes decorator_list
         + sizes type_params)
  | FunctionDef _ _ _ args body decorator_list returns type_params =>
      S (size args + sizes body + sizes decorator_list + osize returns
         + sizes type_params)
  | Return value => S (osize value)
  | Str _ => 1
  | Node _ children => S (sizes children)
  end.

Definition sizes (l : list node) : nat := list_sum (map size l).

(** [ast.walk]:
<<
    todo = deque([node])
    while todo:
        node = todo.popleft()
        todo.extend(iter_child_nodes(node))
        yield node
>>
    The loop runs once per node of the queue's trees, so the number of nodes
    still to yield bounds the iterations. *)
Fixpoint walk_queue (fuel : nat) (todo : list node) : list node :=
  match fuel, todo with
  | S fuel', n :: rest => n :: walk_queue fuel' (rest ++ iter_child_nodes n)
  | _, _ => []
  end.

Definition walk (n : node) : list node := walk_queue (size n) [n].

(** Pre-order depth-first traversal: a node, then each child's subtree in
    turn.  This is the order in which the nodes are written in the source
    text. *)
Fixpoint preorder (n : node) : list node :=
  let pres := fix pres (l : list node) : list node :=
    match l with [] => [] | x :: r => preorder x ++ pres r end in
  let opre := fun o : option node =>
    match o with Some x => preorder x | None => [] end in
  n ::
  match n with
  | Import names => map AliasNode names
  | ImportFrom _ names _ => map AliasNode names
  | AliasNode _ => []
  | ClassDef _ bases keywords body decorator_list type_params =>
      pres bases ++ pres keywords ++ pres body ++ pres decorator_list
      ++ pres type_params
  | FunctionDef _ _ _ args body decorator_list returns type_params =>
      preorder args ++ pres body ++ pres decorator_list ++ opre returns
      ++ pres type_params
  | Return value => opre value
  | Str _ => []
  | Node _ children => pres children
  end.

(** The nodes at depth [d] below the nodes of [l], left to right. *)
Fixpoint level (d : nat) (l : list node) : list node :=
  match d with
  | 0 => l
  | S d' => level d' (flat_map iter_child_nodes l)
  end.

(** Breadth-first order: level 0, then level 1, ... up to depth [d]. *)
Fixpoint levels_upto (d : nat) (l : list node) : list node :=
  match d with
  | 0 => []
  | S d' => l ++ levels_upto d' (flat_map iter_child_nodes l)
  end.

(** Attribute reads.  The script reads [.name] and the line numbers only
    under an [isinstance] test for [ClassDef] or [FunctionDef]. *)
Definition name_of (n : node) : str :=
  match n with
  | ClassDef name _ _ _ _ _ => name
  | FunctionDef name _ _ _ _ _ _ _ => name
  | _ => []
  end.

Definition lineno_of (n : node) : nat :=
  match n with FunctionDef _ l _ _ _ _ _ _ => l | _ => 0 end.

Definition end_lineno_of (n : node) : nat :=
  match n with FunctionDef _ _ l _ _ _ _ _ => l | _ => 0 end.

Definition is_ClassDef (n : node) : bool :=
  match n with ClassDef _ _ _ _ _ _ => true | _ => false end.

Definition is_FunctionDef (n : node) : bool :=
  match n with FunctionDef _ _ _ _ _ _ _ _ => true | _ => false end.

(** [isinstance(node, (ast.If, ast.While, ast.For))] *)
Definition is_If_While_For (n : node) : bool :=
  match n with
  | Node If _ | Node While _ | Node For _ => true
  | _ => false
  end.

Definition is_Try (n : node) : bool :=
  match n with Node Try _ => true | _ => false end.

Definition is_Call (n : node) : bool :=
  match n with Node Call _ => true | _ => false end.

End Ast.

Import Ast.

(** ** The report

    The two dictionaries built by the script, as records with the keys as
    fields.  The values of [returnType], [complexity] and [parsingStrategy]
    are the Python strings the script stores. *)

Module Method.

Record t := mk {
  name : str;
  returnType : str;
  selectors : list str;
  schemaProperties : list str;
  complexity : Z;
  body : str
}.

Definition set_returnType (m : t) (v : str) : t :=
  mk (name m) v (selectors m) (schemaProperties m) (complexity m) (body m).
Definition append_selector (m : t) (v : str) : t :=
  mk (name m) (returnType m) (selectors m ++ [v]) (schemaProperties m)
     (complexity m) (body m).
Definition append_schemaProperty (m : t) (v : str) : t :=
  mk (name m) (returnType m) (selectors m) (schemaProperties m ++ [v])
     (complexity m) (body m).
Definition set_complexity (m : t) (v : Z) : t :=
  mk (name m) (returnType m) (selectors m) (schemaProperties m) v (body m).
Definition set_body (m : t) (v : str) : t :=
  mk (name m) (returnType m) (selectors m) (schemaProperties m)
     (complexity m) v.

End Method.

Module Analysis.

Record t := mk {
  className : str;
  hostName : str;
  methods : list Method.t;
  imports : list str;
  complexity : str;
  parsingStrategy : str;
  filePath : str
}.

Definition set_className (a : t) (v : str) : t :=
  mk v (hostName a) (methods a) (imports a) (complexity a)
     (parsingStrategy a) (filePath a).
Definition set_hostName (a : t) (v : str) : t :=
  mk (className a) v (methods a) (imports a) (complexity a)
     (parsingStrategy a) (filePath a).
Definition append_method (a : t) (v : Method.t) : t :=
  mk (className a) (hostName a) (methods a ++ [v]) (imports a) (complexity a)
     (parsingStrategy a) (filePath a).
Definition append_import (a : t) (v : str) : t :=
  mk (className a) (hostName a) (methods a) (imports a ++ [v]) (complexity a)
     (parsingStrategy a) (filePath a).
Definition set_complexity (a : t) (v : str) : t :=
  mk (className a) (hostName a) (methods a) (imports a) v
     (parsingStrategy a) (filePath a).
Definition set_parsingStrategy (a : t) (v : str) : t :=
  mk (className a) (hostName a) (methods a) (imports a) (complexity a)
     v (filePath a).

End Analysis.

(** ** Effects

    The script reads one file, writes to the standard streams and may stop
    with an exception.  A [world] records the file system, what has reached
    each stream, which paths have been opened, what standard output is
    connected to and what still sits in the buffer of [sys.stdout]. *)

Module IO.

(** What happens to a line printed to [sys.stdout], by what standard output
    is connected to and how it is buffered. *)
Inductive stdout_device :=
| Writable       (* every write reaches the device *)
| Closed         (* no standard output: sys.stdout is None and print
                    returns without writing *)
| FailsAtExit    (* a file or pipe that cannot be written (full device,
                    closed pipe), block-buffered: print fills the buffer
                    and returns, the flush at exit fails *)
| FailsInPrintAndAtExit
                 (* the flush inside print fails and the line stays in the
                    buffer (a terminal that cannot be written, or a line
                    larger than the buffer): print raises and the flush at
                    exit fails again *)
| FailsInPrint.  (* unbuffered output that cannot be written: the write
                    inside print fails, nothing stays in a buffer *)

Record world := mkWorld {
  files : str -> option str;    (* the text of each readable file *)
  stdout : list str;            (* the lines that reached standard output,
                                   oldest first *)
  stderr : list str;
  opened : list str;            (* the paths passed to open, oldest first *)
  device : stdout_device;
  pending : list str            (* the lines in the buffer of sys.stdout *)
}.

Inductive exn :=
| ReadError (path : str)   (* open or read raised: missing file, ... *)
| ParseError               (* ast.parse raised: SyntaxError, ... *)
| WriteError               (* print raised: OSError on standard output *)
| SystemExit (code : Z).   (* sys.exit(code) *)

Inductive result (A : Type) :=
| Ok (a : A)
| Raise (e : exn).
Arguments Ok {A} a.
Arguments Raise {A} e.

Definition io (A : Type) := world -> world * result A.

Definition ret {A} (a : A) : io A := fun w => (w, Ok a).

Definition raise {A} (e : exn) : io A := fun w => (w, Raise e).

Definition bind {A B} (m : io A) (k : A -> io B) : io B :=
  fun w =>
    match m w with
    | (w', Ok a) => k a w'
    | (w', Raise e) => (w', Raise e)
    end.

(** [print(line)] writes to [sys.stdout]. *)
Definition print (line : str) : io unit :=
  fun w =>
    match device w with
    | Writable =>
        (mkWorld (files w) (stdout w ++ [line]) (stderr w) (opened w)
           (device w) (pending w), Ok tt)
    | Closed => (w, Ok tt)
    | FailsAtExit =>
        (mkWorld (files w) (stdout w) (stderr w) (opened w) (device w)
           (pending w ++ [line]), Ok tt)
    | FailsInPrintAndAtExit =>
        (mkWorld (files w) (stdout w) (stderr w) (opened w) (device w)
           (pending w ++ [line]), Raise WriteError)
    | FailsInPrint => (w, Raise WriteError)
    end.

(** [with open(path, "r", encoding="utf-8") as f: f.read()] *)
Definition read_text (path : str) : io str :=
  fun w =>
    let w' := mkWorld (files w) (stdout w) (stderr w) (opened w ++ [path])
                (device w) (pending w) in
    match files w path with
    | Some content => (w', Ok content)
    | None => (w', Raise (ReadError path))
    end.

(** [sys.exit(code)] *)
Definition sys_exit {A} (code : Z) : io A := raise (SystemExit code).

End IO.

Import IO.

Notation "x <- m ;; k" := (bind m (fun x => k))
  (at level 61, m at next level, right associativity).
Notation "m ;;; k" := (bind m (fun _ => k))
  (at level 61, right associativity).

(** ** The script *)

Section Script.

(** The parts of the Python runtime the script calls.  [word] is the class
    [\w] of the [re] module, [lower] is [str.lower], [parse] is [ast.parse]
    ([None] when it raises) and [dumps] is [json.dumps]. *)
Variable word : char -> bool.
Variable lower : str -> str.
Variable parse : str -> option node.
Variable dumps : Analysis.t -> str.

(** What the interpreter writes to the error stream when an exception
    reaches the top level, and when the flush of [sys.stdout] fails at
    exit. *)
Variable traceback : exn -> str.
Variable exception_ignored : str.

(** The class [[\w-]]. *)
Definition word_or_hyphen (c : char) : bool := word c || one_of "-" c.

(** [r"[.#][\w-]+"] *)
Definition css_class_or_id : regex :=
  Cat (Cls (one_of ".#")) (Plus (Cls word_or_hyphen)).

(** The second pattern (source line 110): a letter, then [[\w-]*], then
    optionally an attribute test in square brackets made of [[\w-]+], at
    most one operator character among [= ~ | ^ $ *], at most one quote
    character, any number of characters that are not quotes, at most one
    quote character, and the closing bracket. *)
Definition css_element : regex :=
  Cat (Cls is_letter)
 (Cat (Star (Cls word_or_hyphen))
      (Opt (Cat (Chr "[")
           (Cat (Plus (Cls word_or_hyphen))
           (Cat (Opt (Cls (one_of "=~|^$*")))
           (Cat (Opt (Cls is_quote))
           (Cat (Star (Cls (fun c => negb (is_quote c))))
           (Cat (Opt (Cls is_quote))
                (Chr "]"))))))))).

(** [r"[a-zA-Z][\w-]*:[\w-]+"] *)
Definition css_pseudo : regex :=
  Cat (Cls is_letter)
 (Cat (Star (Cls word_or_hyphen))
 (Cat (Chr ":") (Plus (Cls word_or_hyphen)))).

Definition css_patterns : list regex :=
  [css_class_or_id; css_element; css_pseudo].

Definition extract_css_selector (text : str) : option str :=
  if existsb (fun pattern => search pattern text) css_patterns
  then Some text else None.

Definition schema_patterns : list str :=
  map lit
    ["recipeIngredient"; "recipeInstructions"; "totalTime"; "cookTime";
     "prepTime"; "recipeYield"; "name"; "description"; "author"; "image";
     "datePublished"; "nutrition"]%string.

Definition extract_schema_property (text : str) : option str :=
  find (fun pattern => contains pattern text) schema_patterns.

Definition first_return_str : list node -> option str :=
  fix go (l : list node) : option str :=
    match l with
    | [] => None
    | Return (Some (Str s)) :: _ => Some s
    | _ :: rest => go rest
    end.

Definition extract_host_name (method_node : node) : option str :=
  first_return_str (walk method_node).

(** One iteration of the loop of [calculate_method_complexity].  The running
    total is a multiple of one half, which Python's floats hold exactly. *)
Definition complexity_step (complexity : Q) (node : node) : Q :=
  if is_If_While_For node then (complexity + 1)%Q
  else if is_Try node then (complexity + 1)%Q
  else if is_Call node then (complexity + (1 # 2))%Q
  else complexity.

(** [int(x)]: truncation toward zero. *)
Definition int (x : Q) : Z := Z.quot (Qnum x) (Zpos (Qden x)).

Definition calculate_method_complexity (method_node : node) : Z :=
  int (fold_left complexity_step (walk method_node) 0%Q).

Definition scan_selector (method_analysis : Method.t) (node : node)
  : Method.t :=
  match node with
  | Str s =>
      match extract_css_selector s with
      | Some selector =>
          if nonempty selector
          then Method.append_selector method_analysis selector
          else method_analysis
      | None => method_analysis
      end
  | _ => method_analysis
  end.

Definition scan_schema_property (method_analysis : Method.t) (node : node)
  : Method.t :=
  match node with
  | Str s =>
      match extract_schema_property s with
      | Some schema_prop =>
          if nonempty schema_prop
          then Method.append_schemaProperty method_analysis schema_prop
          else method_analysis
      | None => method_analysis
      end
  | _ => method_analysis
  end.

Definition analyze_method (method_node : node) (content : str) : Method.t :=
  let method_analysis :=
    Method.mk (name_of method_node) (lit "string") [] [] 0%Z [] in
  (* Extract method body as string *)
  let method_analysis :=
    if negb (lineno_of method_node =? 0)
       && negb (end_lineno_of method_node =? 0)
    then
      let lines := split_lines content in
      Method.set_body method_analysis
        (join_lines (slice (lineno_of method_node - 1)
                           (end_lineno_of method_node) lines))
    else method_analysis in
  (* Extract CSS selectors *)
  let method_analysis :=
    fold_left scan_selector (walk method_node) method_analysis in
  (* Extract schema.org properties *)
  let method_analysis :=
    fold_left scan_schema_property (walk method_node) method_analysis in
  (* Calculate complexity *)
  let method_analysis :=
    Method.set_complexity method_analysis
      (calculate_method_complexity method_node) in
  (* Determine return type *)
  if mem (name_of method_node) [lit "ingredients"; lit "instructions"]
  then Method.set_returnType method_analysis (lit "string[]")
  else if mem (name_of method_node)
            [lit "total_time"; lit "cook_time"; lit "prep_time"]
  then Method.set_returnType method_analysis (lit "number")
  else method_analysis.

(** [sum(xs)]: starts at 0 and adds from the left. *)
Definition sum (xs : list Z) : Z := fold_left Z.add xs 0%Z.

(** [len(xs)] *)
Definition len {A} (xs : list A) : Z := Z.of_nat (length xs).

Definition determine_complexity (analysis : Analysis.t) : str :=
  let total_complexity :=
    sum (map Method.complexity (Analysis.methods analysis)) in
  let method_count := len (Analysis.methods analysis) in
  if (total_complexity >? 20)%Z || (method_count >? 15)%Z
  then lit "complex"
  else if (total_complexity >? 10)%Z || (method_count >? 8)%Z
  then lit "medium"
  else lit "simple".

Definition determine_parsing_strategy (analysis : Analysis.t) (content : str)
  : str :=
  let _schema_count :=
    sum (map (fun method => len (Method.schemaProperties method))
             (Analysis.methods analysis)) in
  let selector_count :=
    sum (map (fun method => len (Method.selectors method))
             (Analysis.methods analysis)) in
  if contains (lit "schema") (lower content)
     || contains (lit "json") (lower content)
  then
    if (selector_count >? 0)%Z then lit "mixed" else lit "schema"
  else lit "selectors".

(** The body of the first loop of [analyze_scraper] (source lines 25-31). *)
Definition collect_import (analysis : Analysis.t) (node : node)
  : Analysis.t :=
  match node with
  | Import names =>
      fold_left
        (fun a alias => Analysis.append_import a (alias_name alias))
        names analysis
  | ImportFrom (Some module) names _ =>
      if nonempty module then
        fold_left
          (fun a alias =>
             Analysis.append_import a
               (module ++ lit "." ++ alias_name alias))
          names analysis
      else analysis
  | _ => analysis
  end.

(** The body of the inner loop over [node.body] (source lines 40-48). *)
Definition visit_item (content : str) (analysis : Analysis.t) (item : node)
  : Analysis.t :=
  if is_FunctionDef item then
    let method_analysis := analyze_method item content in
    let analysis := Analysis.append_method analysis method_analysis in
    (* Extract host name from host() method *)
    if eqb (name_of item) (lit "host") then
      match extract_host_name item with
      | Some host_name =>
          if nonempty host_name
          then Analysis.set_hostName analysis host_name
          else analysis
      | None => analysis
      end
    else analysis
  else analysis.

(** The body of the second loop of [analyze_scraper] (source lines 35-48). *)
Definition visit_class (content : str) (analysis : Analysis.t) (node : node)
  : Analysis.t :=
  match node with
  | ClassDef name _ _ body _ _ =>
      fold_left (visit_item content) body
        (Analysis.set_className analysis name)
  | _ => analysis
  end.

(** [analyze_scraper] from the parsed tree onwards (source lines 13-54). *)
Definition analyze_tree (file_path content : str) (tree : node)
  : Analysis.t :=
  let analysis :=
    Analysis.mk [] [] [] [] (lit "simple") (lit "schema") file_path in
  (* Extract imports *)
  let analysis := fold_left collect_import (walk tree) analysis in
  (* Find class definition *)
  let analysis := fold_left (visit_class content) (walk tree) analysis in
  (* Determine complexity and parsing strategy *)
  let analysis :=
    Analysis.set_complexity analysis (determine_complexity analysis) in
  let analysis :=
    Analysis.set_parsingStrategy analysis
      (determine_parsing_strategy analysis content) in
  analysis.

(** [ast.parse(content)] *)
Definition ast_parse (content : str) : io node :=
  match parse content with
  | Some tree => ret tree
  | None => raise ParseError
  end.

Definition analyze_scraper (file_path : str) : io Analysis.t :=
  content <- read_text file_path ;;
  tree <- ast_parse content ;;
  ret (analyze_tree file_path content tree).

Definition usage : str := lit "Usage: python analyze_scraper.py <file_path>".

(** The [if __name__ == "__main__":] block; [argv] is [sys.argv]. *)
Definition main (argv : list str) : io unit :=
  if negb (len argv =? 2)%Z then
    print usage ;;;
    sys_exit 1%Z
  else
    let file_path := nth 1 argv [] in
    analysis <- analyze_scraper file_path ;;
    print (dumps analysis).

(** A process starts with an empty buffer. *)
Definition start (w : world) : world :=
  mkWorld (files w) (stdout w) (stderr w) (opened w) (device w) [].

(** The interpreter's exit: it flushes [sys.stdout].  When lines are left in
    the buffer of a device that cannot be written, the flush fails: the
    lines are lost, the failure is reported on the error stream and the exit
    status becomes 120, whatever it was. *)
Definition finalize (w : world) (status : Z) : world * Z :=
  match pending w with
  | [] => (w, status)
  | _ :: _ =>
      (mkWorld (files w) (stdout w) (stderr w ++ [exception_ignored])
         (opened w) (device w) [], 120%Z)
  end.

(** The interpreter running the script as a process: the final world and
    the exit status.  [SystemExit] with an integer code sets the status and
    prints nothing; any other exception is reported on the error stream and
    the status is 1; then the interpreter exits. *)
Definition run (argv : list str) (w : world) : world * Z :=
  match main argv (start w) with
  | (w', Ok _) => finalize w' 0%Z
  | (w', Raise (SystemExit code)) => finalize w' code
  | (w', Raise e) =>
      finalize
        (mkWorld (files w') (stdout w') (stderr w' ++ [traceback e])
           (opened w') (device w') (pending w'))
        1%Z
  end.

End Script.

(** ** Quantities named by the properties *)

Section Views.

(** Number of elements of [l] that satisfy [f]. *)
Fixpoint count {A} (f : A -> bool) (l : list A) : Z :=
  match l with
  | [] => 0
  | x :: rest => (if f x then 1 else 0) + count f rest
  end%Z.

(** The nodes that add 1 to a method's complexity, and those that add one
    half. *)
Definition adds_one (n : node) : bool := is_If_While_For n || is_Try n.
Definition adds_half (n : node) : bool := is_Call n.

(** What one node contributes to the imports list. *)
Definition import_names (n : node) : list str :=
  match n with
  | Import names => map alias_name names
  | ImportFrom (Some module) names _ =>
      if nonempty module
      then map (fun a => module ++ lit "." ++ alias_name a) names
      else []
  | _ => []
  end.

(** [node.body] of a class definition. *)
Definition body_of (n : node) : list node :=
  match n with ClassDef _ _ _ body _ _ => body | _ => [] end.

(** The class definitions in the order [ast.walk] yields them. *)
Definition classes (tree : node) : list node := filter is_ClassDef (walk tree).

(** The method definitions directly in a class body, in body order. *)
Definition method_nodes (c : node) : list node :=
  filter is_FunctionDef (body_of c).

(** The host name a body item sets, if it sets one. *)
Definition host_values (item : node) : list str :=
  if is_FunctionDef item && eqb (name_of item) (lit "host") then
    match extract_host_name item with
    | Some host_name => if nonempty host_name then [host_name] else []
    | None => []
    end
  else [].

(** The host name a class would report if it were the only class. *)
Definition host_of_class (c : node) : str :=
  last (flat_map host_values (body_of c)) [].

(** What one node contributes to a method's selectors and to its schema
    properties. *)
Definition selector_values (word : char -> bool) (n : node) : list str :=
  match n with
  | Str s =>
      match extract_css_selector word s with
      | Some selector => if nonempty selector then [selector] else []
      | None => []
      end
  | _ => []
  end.

Definition schema_values (n : node) : list str :=
  match n with
  | Str s =>
      match extract_schema_property s with
      | Some schema_prop => if nonempty schema_prop then [schema_prop] else []
      | None => []
      end
  | _ => []
  end.

End Views.

(** ** Sample inputs *)

Section Samples.

(** [self] as the only parameter. *)
Definition arguments_self : node :=
  Node (Other "arguments") [Node (Other "arg") []].

(** A variable that is read: [Name(id, ctx=Load())]. *)
Definition name_load : node := Node (Other "Name") [Node (Other "Load") []].

(** [def host(self): return 'foo.com'] on the given lines. *)
Definition host_method (value : string) (lineno : nat) : node :=
  FunctionDef (lit "host") lineno (S lineno) arguments_self
    [Return (Some (Str (lit value)))] [] None [].

(** The scenario of the documentation: a scraper class with a [host] method
    and an [ingredients] method that calls [soup.select]. *)
Definition foo_source : str := lit
"class FooScraper:
    def host(self):
        return 'foo.com'
    def ingredients(self):
        return soup.select('.recipe-ingredient')
".

Definition ingredients_method : node :=
  FunctionDef (lit "ingredients") 4 5 arguments_self
    [Return (Some (Node Call
       [Node (Other "Attribute") [name_load; Node (Other "Load") []];
        Str (lit ".recipe-ingredient")]))]
    [] None [].

Definition foo_tree : node :=
  Node Module_
    [ClassDef (lit "FooScraper") [] []
       [host_method "foo.com" 2; ingredients_method] [] []].

(** Two classes; only the first has a [host] method. *)
Definition two_classes_source : str := lit
"class A:
    def host(self):
        return 'a.com'
class B:
    def title(self):
        return 'x'
".

Definition title_method : node :=
  FunctionDef (lit "title") 5 6 arguments_self
    [Return (Some (Str (lit "x")))] [] None [].

Definition class_a : node :=
  ClassDef (lit "A") [] [] [host_method "a.com" 2] [] [].

Definition class_b : node :=
  ClassDef (lit "B") [] [] [title_method] [] [].

Definition two_classes_tree : node := Node Module_ [class_a; class_b].

(** An import inside a function that comes before a top-level import. *)
Definition nested_import_source : str := lit
"def helper():
    import json
import re
".

Definition nested_import_tree : node :=
  Node Module_
    [FunctionDef (lit "helper") 1 2 (Node (Other "arguments") [])
       [Import [mkAlias (lit "json") None]] [] None [];
     Import [mkAlias (lit "re") None]].

(** A [host] method that returns the empty string. *)
Definition empty_host_method : node := host_method "" 2.

(** A module without class. *)
Definition no_class_source : str := lit
"from os import path
def helper():
    return path
".

Definition no_class_tree : node :=
  Node Module_
    [ImportFrom (Some (lit "os")) [mkAlias (lit "path") None] 0;
     FunctionDef (lit "helper") 2 3 (Node (Other "arguments") [])
       [Return (Some name_load)] [] None []].

(** An analysis with 15 methods whose complexity scores add up to 20. *)
Definition method_of_complexity (c : Z) : Method.t :=
  Method.mk (lit "m") (lit "string") [] [] c [].

Definition boundary_analysis : Analysis.t :=
  Analysis.mk (lit "C") [] 
    (repeat (method_of_complexity 2) 5 ++ repeat (method_of_complexity 1) 10)
    [] (lit "simple") (lit "schema") (lit "c.py").

(** Two analyses with one selector each and different schema properties. *)
Definition one_selector (schema_props : list str) : Analysis.t :=
  Analysis.mk (lit "C") []
    [Method.mk (lit "m") (lit "string") [lit ".title"] schema_props 0%Z []]
    [] (lit "simple") (lit "schema") (lit "c.py").

(** The reports for the sample files. *)
Definition foo_report : Analysis.t :=
  analyze_tree ascii_word ascii_lower (lit "foo.py") foo_source foo_tree.

Definition two_classes_report : Analysis.t :=
  analyze_tree ascii_word ascii_lower (lit "two.py")
    two_classes_source two_classes_tree.

Definition nested_import_report : Analysis.t :=
  analyze_tree ascii_word ascii_lower (lit "nested.py")
    nested_import_source nested_import_tree.

(** The analysis while class [A] of the two classes is being visited, before
    any of its methods. *)
Definition analysis_in_class_a : Analysis.t :=
  Analysis.mk (lit "A") (lit "a.com") [] [] (lit "simple") (lit "schema")
    (lit "two.py").

(** A world where every path holds the given text, and one without files;
    a runtime that parses every text to the given tree. *)
Definition world_with (content : str) : world :=
  mkWorld (fun _ => Some content) [] [] [] Writable [].

Definition empty_world : world :=
  mkWorld (fun _ => None) [] [] [] Writable [].

Definition parse_as (tree : node) (content : str) : option node := Some tree.

Definition no_dumps (a : Analysis.t) : str := [].

Definition no_traceback (e : exn) : str := [].

Definition no_message : str := [].

(** The script run with no argument: [sys.argv] holds the script only. *)
Definition run_without_argument : world * Z :=
  run ascii_word ascii_lower (parse_as foo_tree) no_dumps no_traceback
    no_message [lit "analyze_scraper.py"] empty_world.

End Samples.

(** ** Further quantities *)

Section MoreViews.

(** The text holds an ASCII letter. *)
Definition has_letter (text : str) : bool := existsb is_letter text.

(** The text holds a dot or a hash directly followed by a character of the
    class [[\w-]]. *)
Fixpoint has_class_or_id (word : char -> bool) (text : str) : bool :=
  match text with
  | [] => false
  | c :: rest =>
      match rest with
      | d :: _ => one_of ".#" c && word_or_hyphen word d
      | [] => false
      end
      || has_class_or_id word rest
  end.

(** The values of the string literals among a list of nodes, in order. *)
Definition literals (l : list node) : list str :=
  flat_map (fun n => match n with Str s => [s] | _ => [] end) l.

(** The tiers in increasing order. *)
Definition tier_rank (tier : str) : nat :=
  if eqb tier (lit "complex") then 2
  else if eqb tier (lit "medium") then 1
  else 0.

(** No line break in a line. *)
Definition one_line (l : str) : Prop := ~ In 10%N l.

End MoreViews.

(** ** Further sample inputs *)

Section MoreSamples.

(** A scraper that imports [json] and selects a heading. *)
Definition json_title_source : str := lit
"import json
class T:
    def title(self):
        return 'h1'
".

Definition json_title_method : node :=
  FunctionDef (lit "title") 3 4 arguments_self
    [Return (Some (Str (lit "h1")))] [] None [].

Definition json_title_class : node :=
  ClassDef (lit "T") [] [] [json_title_method] [] [].

Definition json_title_tree : node :=
  Node Module_ [Import [mkAlias (lit "json") None]; json_title_class].

(** A scraper that imports [json] and whose only method returns a number. *)
Definition json_time_source : str := lit
"import json
class T:
    def total_time(self):
        return 30
".

Definition json_time_tree : node :=
  Node Module_
    [Import [mkAlias (lit "json") None];
     ClassDef (lit "T") [] []
       [FunctionDef (lit "total_time") 3 4 arguments_self
          [Return (Some (Node (Other "Constant") []))] [] None []] [] []].

(** A [host] method with a return inside a branch before the final return:
<<
    def host(self):
        if self.debug:
            return 'dev.example'
        return 'example.com'
>> *)
Definition branch_before_return : list node :=
  [Node If
     [Node (Other "Attribute") [name_load; Node (Other "Load") []];
      Return (Some (Str (lit "dev.example")))]].

Definition host_with_branch : node :=
  FunctionDef (lit "host") 2 5 arguments_self
    (branch_before_return
     ++ Return (Some (Str (lit "example.com"))) :: [])
    [] None [].

(** The sample analysis at the boundary with one more method. *)
Definition one_more_method : Method.t := method_of_complexity 1.

End MoreSamples.

(** ** The constructs of the complexity score *)

Section Constructs.

(** The classes that add one point to a method's score and the class that
    adds half a point, as the [isinstance] tests of
    [calculate_method_complexity] list them: [ast.If], [ast.While],
    [ast.For], [ast.Try]; [ast.Call]. *)
Definition scores_one (n : node) : bool :=
  match n with
  | Node If _ | Node While _ | Node For _ | Node Try _ => true
  | _ => false
  end.

Definition scores_half (n : node) : bool :=
  match n with
  | Node Call _ => true
  | _ => false
  end.

(** A node of another class, by the name of the class. *)
Definition class_is (cls : string) (n : node) : bool :=
  match n with
  | Node (Other c) _ => String.eqb c cls
  | _ => false
  end.

(** Following the words of the specification: the conditionals, the loops
    and the exception-handling constructs of a Python syntax tree.  Besides
    the four classes above these are conditional expressions ([IfExp]),
    [match] statements, [async for] loops, the loops of comprehensions and
    [try] statements with [except*] ([TryStar]). *)
Definition is_conditional (n : node) : bool :=
  match n with
  | Node If _ => true
  | _ => class_is "IfExp" n || class_is "Match" n
  end.

Definition is_loop (n : node) : bool :=
  match n with
  | Node While _ | Node For _ => true
  | _ => class_is "AsyncFor" n || class_is "comprehension" n
  end.

Definition is_exception_handling (n : node) : bool :=
  match n with
  | Node Try _ => true
  | _ => class_is "TryStar" n
  end.

Definition spec_construct (n : node) : bool :=
  is_conditional n || is_loop n || is_exception_handling n.

(** A method whose only statement returns a conditional expression:
<<
    def label(self):
        return 'new' if self.fresh else 'old'
>> *)
Definition label_source : str := lit
"class T:
    def label(self):
        return 'new' if self.fresh else 'old'
".

Definition label_method : node :=
  FunctionDef (lit "label") 2 3 arguments_self
    [Return (Some (Node (Other "IfExp")
       [Node (Other "Attribute") [name_load; Node (Other "Load") []];
        Str (lit "new"); Str (lit "old")]))]
    [] None [].

(** A method node without line numbers, as a hand-built tree may have. *)
Definition unnumbered_method : node :=
  FunctionDef (lit "title") 0 0 arguments_self
    [Return (Some (Str (lit "h1")))] [] None [].

End Constructs.

(** * Properties *)

(** ** Text *)

Section TextFacts.

Lemma eqb_refl (s : str) : eqb s s = true.
Proof.
  induction s as [|c s IH]; simpl; [reflexivity|].
  now rewrite N.eqb_refl, IH.
Qed.

Lemma eqb_eq (s t : str) : eqb s t = true <-> s = t.
Proof.
  split.
  - revert t; induction s as [|c s IH]; intros [|d t]; simpl; try discriminate.
    + reflexivity.
    + intros H. apply andb_true_iff in H as [Hc Hs].
      apply N.eqb_eq in Hc. subst d. f_equal. now apply IH.
  - intros ->. apply eqb_refl.
Qed.

Lemma mem_In (x : str) (l : list str) : mem x l = true <-> In x l.
Proof.
  unfold mem. rewrite existsb_exists. split.
  - intros [y [Hy E]]. apply eqb_eq in E. now subst.
  - intros H. exists x. split; [assumption | apply eqb_refl].
Qed.

Lemma startswith_spec (p s : str) :
  startswith p s = true <-> exists q, s = p ++ q.
Proof.
  revert s; induction p as [|c p IH]; intros s; simpl.
  - split; [intros _; now exists s | reflexivity].
  - destruct s as [|d s].
    + split; [discriminate | intros [q Hq]; discriminate].
    + rewrite andb_true_iff, N.eqb_eq, IH. split.
      * intros [-> [q ->]]. now exists q.
      * intros [q Hq]. injection Hq as -> ->. split; [reflexivity | now exists q].
Qed.

(** [contains p s] holds exactly when [p] is a contiguous part of [s]. *)
Lemma contains_spec (p s : str) :
  contains p s = true <-> exists a b, s = a ++ p ++ b.
Proof.
  induction s as [|d s IH]; simpl.
  - rewrite orb_false_r, startswith_spec. split.
    + intros [q Hq]. exists [], q. exact Hq.
    + intros [a [b H]]. destruct a; [now exists b | discriminate].
  - rewrite orb_true_iff, startswith_spec, IH. split.
    + intros [[q Hq] | [a [b H]]].
      * exists [], q. exact Hq.
      * exists (d :: a), b. simpl. now rewrite H.
    + intros [[|x a] [b H]].
      * left. now exists b.
      * right. injection H as -> H. now exists a, b.
Qed.

Lemma existsb_split {A} (f : A -> bool) (l : list A) :
  existsb f l = true -> exists a c b, l = a ++ c :: b /\ f c = true.
Proof.
  intros H. apply existsb_exists in H as [c [Hin Hc]].
  apply in_split in Hin as [a [b ->]]. now exists a, c, b.
Qed.

Lemma last_app_default {A} (l1 l2 : list A) (d : A) :
  last (l1 ++ l2) d = last l2 (last l1 d).
Proof.
  revert d; induction l1 as [|x l1 IH]; intros d; [reflexivity|].
  destruct l1 as [|y l1].
  - simpl. destruct l2; [reflexivity|]. clear IH. revert a.
    induction l2 as [|z l2 IH2]; intros a; [reflexivity|].
    simpl in *. apply IH2.
  - change (last ((x :: y :: l1) ++ l2) d) with (last ((y :: l1) ++ l2) d).
    change (last (x :: y :: l1) d) with (last (y :: l1) d). apply IH.
Qed.

Lemma filter_none {A} (f : A -> bool) (l : list A) :
  (forall x, In x l -> f x = false) -> filter f l = [].
Proof.
  induction l as [|x l IH]; intros H; [reflexivity|].
  simpl. rewrite (H x) by now left. apply IH. intros y Hy. apply H. now right.
Qed.

End TextFacts.

(** ** The matcher decides the language of a pattern *)

Section RegexFacts.

Ltac inv H := inversion H; subst; clear H.

Lemma nullable_spec (r : regex) : nullable r = true <-> matches r [].
Proof.
  induction r as [| |p|r1 IH1 r2 IH2|r1 IH1 r2 IH2|r IH]; simpl.
  - split; [discriminate | intros H; inv H].
  - split; [intros _; constructor | reflexivity].
  - split; [discriminate | intros H; inv H].
  - rewrite andb_true_iff, IH1, IH2. split.
    + intros [H1 H2]. change (@nil char) with (@nil char ++ []).
      now constructor.
    + intros H. inversion H as [| |? ? s1 s2 H1 H2 [E1 E2] E| | | |].
      apply app_eq_nil in E as [-> ->]. now split.
  - rewrite orb_true_iff, IH1, IH2. split.
    + intros [H|H]; [now apply MAltL | now apply MAltR].
    + intros H. inv H; [now left | now right].
  - split; [intros _; constructor | reflexivity].
Qed.

Lemma matches_cons (r1 r2 : regex) (c : char) (s1 s2 : str) :
  matches r1 (c :: s1) -> matches r2 s2 -> matches (Cat r1 r2) (c :: s1 ++ s2).
Proof.
  intros H1 H2. change (c :: s1 ++ s2) with ((c :: s1) ++ s2).
  now constructor.
Qed.

Lemma deriv_sound (c : char) (r : regex) (s : str) :
  matches (deriv c r) s -> matches r (c :: s).
Proof.
  revert s.
  induction r as [| |p|r1 IH1 r2 IH2|r1 IH1 r2 IH2|r IH]; simpl; intros s H.
  - inv H.
  - inv H.
  - destruct (p c) eqn:E; inv H. now constructor.
  - destruct (nullable r1) eqn:N.
    + inv H.
      * match goal with H : matches (Cat _ _) _ |- _ => inv H end.
        apply matches_cons; auto.
      * change (c :: s) with ([] ++ c :: s).
        constructor; [now apply nullable_spec | now apply IH2].
    + inv H. apply matches_cons; auto.
  - inv H; [apply MAltL | apply MAltR]; auto.
  - inv H. change (matches (Star r) ((c :: s1) ++ s2)).
    constructor; auto.
Qed.

Lemma deriv_complete (c : char) (r : regex) (t : str) :
  matches r t -> forall s, t = c :: s -> matches (deriv c r) s.
Proof.
  induction 1 as [|p d Hp|r1 r2 s1 s2 H1 IH1 H2 IH2|r1 r2 t H IH
                 |r1 r2 t H IH| r |r s1 s2 H1 IH1 H2 IH2];
    intros s E; simpl.
  - discriminate.
  - injection E as -> <-. rewrite Hp. constructor.
  - destruct s1 as [|x s1]; simpl in E.
    + apply nullable_spec in H1. rewrite H1. apply MAltR. now apply IH2.
    + injection E as -> <-.
      destruct (nullable r1); [apply MAltL|]; constructor; auto.
  - apply MAltL. now apply IH.
  - apply MAltR. now apply IH.
  - discriminate.
  - destruct s1 as [|x s1]; simpl in E.
    + now apply IH2.
    + injection E as -> <-. constructor; auto.
Qed.

Lemma deriv_spec (c : char) (r : regex) (s : str) :
  matches (deriv c r) s <-> matches r (c :: s).
Proof.
  split; [apply deriv_sound | intros H; now apply (deriv_complete H)].
Qed.

Lemma match_prefix_spec (r : regex) (s : str) :
  match_prefix r s = true <-> exists p q, s = p ++ q /\ matches r p.
Proof.
  revert r; induction s as [|c s IH]; intros r; simpl.
  - rewrite orb_false_r, nullable_spec. split.
    + intros H. now exists [], [].
    + intros [p [q [E H]]]. symmetry in E.
      apply app_eq_nil in E as [-> _]. exact H.
  - rewrite orb_true_iff, nullable_spec, IH. split.
    + intros [H | [p [q [E H]]]].
      * now exists [], (c :: s).
      * exists (c :: p), q. split; [simpl; now rewrite E|].
        now apply deriv_spec.
    + intros [[|x p] [q [E H]]].
      * now left.
      * right. injection E as -> ->. exists p, q.
        split; [reflexivity | now apply deriv_spec].
Qed.

(** [search] succeeds exactly when some substring is in the language. *)
Lemma search_spec (r : regex) (s : str) :
  search r s = true <-> exists a p q, s = a ++ p ++ q /\ matches r p.
Proof.
  induction s as [|c s IH]; cbn [search].
  - rewrite orb_false_r, match_prefix_spec. split.
    + intros [p [q [E H]]]. now exists [], p, q.
    + intros [a [p [q [E H]]]]. destruct a; [|discriminate].
      now exists p, q.
  - rewrite orb_true_iff, match_prefix_spec, IH. split.
    + intros [[p [q [E H]]] | [a [p [q [E H]]]]].
      * now exists [], p, q.
      * exists (c :: a), p, q. split; [simpl; now rewrite E | exact H].
    + intros [[|x a] [p [q [E H]]]].
      * left. now exists p, q.
      * right. injection E as -> ->. now exists a, p, q.
Qed.

End RegexFacts.

(** ** The walk visits every node once, level by level *)

Section AstFacts.

Lemma sizes_cons (n : node) (l : list node) :
  sizes (n :: l) = size n + sizes l.
Proof. reflexivity. Qed.

Lemma sizes_app (l1 l2 : list node) : sizes (l1 ++ l2) = sizes l1 + sizes l2.
Proof. unfold sizes. now rewrite map_app, list_sum_app. Qed.

Lemma sizes_aliases (names : list alias) :
  sizes (map AliasNode names) = length names.
Proof. induction names as [|a l IH]; [reflexivity|]. rewrite map_cons, sizes_cons, IH. reflexivity. Qed.

Lemma sizes_fix (l : list node) :
  (fix sizes (l : list node) : nat :=
     match l with [] => 0 | x :: r => size x + sizes r end) l = sizes l.
Proof. induction l as [|x l IH]; [reflexivity|]. now rewrite sizes_cons, <- IH. Qed.

Lemma sizes_opt (o : option node) :
  sizes (opt_list o) = match o with Some x => size x | None => 0 end.
Proof. destruct o; unfold sizes; simpl; lia. Qed.

Lemma size_eq (n : node) : size n = S (sizes (iter_child_nodes n)).
Proof.
  destruct n as [names|m names lv|a|nm b k bo d t|nm l e a bo d r t|v|s|k ch];
    simpl;
    rewrite ?sizes_fix, ?sizes_aliases, ?sizes_cons, ?sizes_app, ?sizes_opt;
    try reflexivity; f_equal; lia.
Qed.

Lemma size_pos (n : node) : 0 < size n.
Proof. rewrite size_eq. lia. Qed.

Lemma sizes_children (l : list node) :
  sizes l = length l + sizes (flat_map iter_child_nodes l).
Proof.
  induction l as [|x l IH]; [reflexivity|].
  simpl. rewrite sizes_cons, sizes_app, size_eq, IH. lia.
Qed.

Lemma pres_fix (l : list node) :
  (fix pres (l : list node) : list node :=
     match l with [] => [] | x :: r => preorder x ++ pres r end) l
  = flat_map preorder l.
Proof. induction l as [|x l IH]; [reflexivity|]. simpl. now rewrite IH. Qed.

Lemma flat_map_aliases (names : list alias) :
  flat_map preorder (map AliasNode names) = map AliasNode names.
Proof. induction names as [|a l IH]; [reflexivity|]. simpl. now rewrite IH. Qed.

Lemma preorder_eq (n : node) :
  preorder n = n :: flat_map preorder (iter_child_nodes n).
Proof.
  destruct n as [names|m names lv|a|nm b k bo d t|nm l e a bo d r t|v|s|k ch];
    simpl; rewrite ?pres_fix, ?flat_map_aliases, ?flat_map_app;
    try reflexivity.
  - destruct r as [r|]; simpl; rewrite ?app_nil_r; reflexivity.
  - destruct v as [v|]; simpl; rewrite ?app_nil_r; reflexivity.
Qed.

(** Any fuel that covers the nodes of the queue gives the same walk. *)
Lemma walk_queue_fuel (f1 f2 : nat) (todo : list node) :
  sizes todo <= f1 -> sizes todo <= f2 ->
  walk_queue f1 todo = walk_queue f2 todo.
Proof.
  revert f2 todo; induction f1 as [|f1 IH]; intros f2 todo H1 H2.
  - destruct todo as [|n rest]; [now destruct f2|].
    rewrite sizes_cons in H1. pose proof (size_pos n). lia.
  - destruct todo as [|n rest]; [now destruct f2|].
    rewrite sizes_cons, size_eq in H1, H2.
    destruct f2 as [|f2]; [lia|]. simpl. f_equal.
    apply IH; rewrite sizes_app; lia.
Qed.

(** The walk yields the nodes of the tree, each once: it is a permutation
    of the pre-order listing. *)
Lemma walk_queue_perm (fuel : nat) (todo : list node) :
  sizes todo <= fuel ->
  Permutation (walk_queue fuel todo) (flat_map preorder todo).
Proof.
  revert todo; induction fuel as [|fuel IH]; intros todo H.
  - destruct todo as [|n rest]; [constructor|].
    rewrite sizes_cons in H. pose proof (size_pos n). lia.
  - destruct todo as [|n rest]; [constructor|].
    rewrite sizes_cons, size_eq in H. simpl. rewrite preorder_eq. simpl.
    constructor. etransitivity.
    + apply IH. rewrite sizes_app. lia.
    + rewrite flat_map_app. apply Permutation_app_comm.
Qed.

Lemma walk_perm (n : node) : Permutation (walk n) (preorder n).
Proof.
  unfold walk. rewrite <- (app_nil_r (preorder n)).
  apply (walk_queue_perm (fuel := size n) [n]).
  rewrite sizes_cons. unfold sizes. simpl. lia.
Qed.

Lemma walk_queue_length (fuel : nat) (todo : list node) :
  sizes todo <= fuel -> length (walk_queue fuel todo) = sizes todo.
Proof.
  revert todo; induction fuel as [|fuel IH]; intros todo H.
  - destruct todo as [|n rest]; [reflexivity|].
    rewrite sizes_cons in H. pose proof (size_pos n). lia.
  - destruct todo as [|n rest]; [reflexivity|].
    rewrite sizes_cons, size_eq in *. simpl.
    rewrite IH; rewrite sizes_app; lia.
Qed.

Lemma walk_length (n : node) : length (walk n) = size n.
Proof.
  unfold walk. rewrite walk_queue_length; rewrite sizes_cons; unfold sizes;
    simpl; lia.
Qed.

(** While the queue holds the rest [q] of one level followed by the children
    of its already visited part [p], the walk yields [q] and goes on with
    the whole next level. *)
Lemma walk_queue_level (q p : list node) (f f' : nat) :
  sizes (q ++ flat_map iter_child_nodes p) <= f ->
  sizes (flat_map iter_child_nodes (p ++ q)) <= f' ->
  walk_queue f (q ++ flat_map iter_child_nodes p)
  = q ++ walk_queue f' (flat_map iter_child_nodes (p ++ q)).
Proof.
  revert p f; induction q as [|x q IH]; intros p f Hf Hf'.
  - rewrite app_nil_r in *. simpl in *. now apply walk_queue_fuel.
  - simpl in Hf. rewrite sizes_cons, size_eq in Hf.
    destruct f as [|f]; [lia|]. simpl. f_equal.
    replace (p ++ x :: q) with ((p ++ [x]) ++ q) in *
      by now rewrite <- app_assoc.
    rewrite <- app_assoc.
    replace (flat_map iter_child_nodes p ++ iter_child_nodes x)
      with (flat_map iter_child_nodes (p ++ [x]))
      by (rewrite flat_map_app; simpl; now rewrite app_nil_r).
    apply IH; [|assumption].
    rewrite sizes_app in *. rewrite flat_map_app, sizes_app. simpl.
    rewrite app_nil_r. lia.
Qed.

Lemma walk_queue_levels (d : nat) (l : list node) :
  sizes l <= d -> walk_queue d l = levels_upto d l.
Proof.
  revert l; induction d as [|d IH]; intros l H.
  - destruct l as [|n rest]; [reflexivity|].
    rewrite sizes_cons in H. pose proof (size_pos n). lia.
  - simpl levels_upto. rewrite <- IH.
    + pose proof (walk_queue_level l [] (f := S d) (f' := d)) as E.
      simpl in E. rewrite app_nil_r in E. apply E; [assumption|].
      rewrite sizes_children in H.
      destruct l; [unfold sizes; simpl; lia | simpl length in H; lia].
    + rewrite sizes_children in H.
      destruct l; [unfold sizes; simpl; lia | simpl length in H; lia].
Qed.

(** [ast.walk] is breadth-first: the root, then its children, then their
    children, ... each level from left to right. *)
Lemma walk_levels (n : node) : walk n = levels_upto (size n) [n].
Proof.
  unfold walk. apply walk_queue_levels.
  rewrite sizes_cons. unfold sizes. simpl. lia.
Qed.

Lemma walk_In (n x : node) : In x (walk n) <-> In x (preorder n).
Proof.
  split; apply Permutation_in; [|symmetry]; apply walk_perm.
Qed.

(** The levels follow one another: the walk up to depth [d + 1] is the walk
    up to depth [d] followed by the nodes at depth [d]. *)
Lemma levels_upto_level (d : nat) (l : list node) :
  levels_upto (S d) l = levels_upto d l ++ level d l.
Proof.
  revert l; induction d as [|d IH]; intros l.
  - simpl. now rewrite app_nil_r.
  - change (levels_upto (S (S d)) l)
      with (l ++ levels_upto (S d) (flat_map iter_child_nodes l)).
    rewrite IH. simpl. now rewrite app_assoc.
Qed.

End AstFacts.

(** ** The functions of the script *)

Section ScriptFacts.

Set Default Proof Using "Type".

Variable word : char -> bool.
Variable lower : str -> str.

Lemma count_nonneg {A} (f : A -> bool) (l : list A) : (0 <= count f l)%Z.
Proof. induction l as [|x l IH]; simpl; [|destruct (f x)]; lia. Qed.

(** [int] does not depend on how the fraction is written. *)
Lemma int_Qeq (x y : Q) : (x == y)%Q -> int x = int y.
Proof.
  unfold Qeq, int. destruct x as [a b], y as [c d]. simpl. intros E.
  rewrite <- (Z.quot_mul_cancel_r a (Zpos b) (Zpos d)) by lia.
  rewrite E, (Z.mul_comm (Zpos b)).
  apply Z.quot_mul_cancel_r; lia.
Qed.

Lemma int_half (k : Z) : (0 <= k)%Z -> int (k # 2) = (k / 2)%Z.
Proof. intros H. unfold int. simpl. apply Z.quot_div_nonneg; lia. Qed.

Lemma adds_one_not_half (x : node) : adds_one x = true -> adds_half x = false.
Proof.
  unfold adds_one, adds_half.
  destruct x as [| | | | | | |k ch]; try destruct k; simpl; congruence.
Qed.

Lemma count_perm {A} (f : A -> bool) (l l' : list A) :
  Permutation l l' -> count f l = count f l'.
Proof.
  induction 1 as [|x l l' _ IH|x y l|l l' l'' _ IH1 _ IH2]; simpl;
    try congruence; lia.
Qed.

Lemma count_cons {A} (f : A -> bool) (x : A) (l : list A) :
  count f (x :: l) = ((if f x then 1 else 0) + count f l)%Z.
Proof. reflexivity. Qed.

Lemma complexity_step_eq (q : Q) (x : node) :
  (complexity_step q x
   == q + inject_Z (if adds_one x then 1 else 0) * 1
        + inject_Z (if adds_half x then 1 else 0) * (1 # 2))%Q.
Proof.
  pose proof (adds_one_not_half x) as D.
  unfold complexity_step. unfold adds_one, adds_half in *.
  destruct (is_If_While_For x); [|destruct (is_Try x);
    [|destruct (is_Call x)]]; cbn [orb] in *;
    rewrite ?D by reflexivity; unfold inject_Z; ring.
Qed.

Lemma fold_complexity_step (l : list node) (q : Q) :
  (fold_left complexity_step l q
   == q + inject_Z (count adds_one l) * 1
        + inject_Z (count adds_half l) * (1 # 2))%Q.
Proof.
  revert q; induction l as [|x l IH]; intros q; cbn [fold_left].
  - unfold count, inject_Z. ring.
  - rewrite IH, complexity_step_eq, !count_cons, !inject_Z_plus. ring.
Qed.

Lemma calculate_method_complexity_eq (method_node : node) :
  calculate_method_complexity method_node
  = ((2 * count adds_one (walk method_node)
      + count adds_half (walk method_node)) / 2)%Z.
Proof.
  unfold calculate_method_complexity.
  pose proof (count_nonneg adds_one (walk method_node)).
  pose proof (count_nonneg adds_half (walk method_node)).
  rewrite <- int_half by lia. apply int_Qeq.
  rewrite fold_complexity_step.
  unfold Qeq, Qplus, Qmult, inject_Z. cbn [Qnum Qden].
  rewrite ?Pos2Z.inj_mul. ring.
Qed.

(** *** [analyze_method], field by field *)

Lemma fold_scan_selector (l : list node) (ma : Method.t) :
  fold_left (scan_selector word) l ma
  = Method.mk (Method.name ma) (Method.returnType ma)
      (Method.selectors ma ++ flat_map (selector_values word) l)
      (Method.schemaProperties ma) (Method.complexity ma) (Method.body ma).
Proof.
  revert ma; induction l as [|x l IH]; intros ma; cbn [fold_left flat_map].
  - rewrite app_nil_r. now destruct ma.
  - rewrite IH. unfold scan_selector, selector_values.
    destruct x; try (rewrite ?app_nil_l; reflexivity).
    destruct (extract_css_selector word s) as [sel|]; [|reflexivity].
    destruct (nonempty sel); [|reflexivity].
    cbn. now rewrite <- app_assoc.
Qed.

Lemma fold_scan_schema_property (l : list node) (ma : Method.t) :
  fold_left scan_schema_property l ma
  = Method.mk (Method.name ma) (Method.returnType ma) (Method.selectors ma)
      (Method.schemaProperties ma ++ flat_map schema_values l)
      (Method.complexity ma) (Method.body ma).
Proof.
  revert ma; induction l as [|x l IH]; intros ma; cbn [fold_left flat_map].
  - rewrite app_nil_r. now destruct ma.
  - rewrite IH. unfold scan_schema_property, schema_values.
    destruct x; try (rewrite ?app_nil_l; reflexivity).
    destruct (extract_schema_property s) as [p|]; [|reflexivity].
    destruct (nonempty p); [|reflexivity].
    cbn. now rewrite <- app_assoc.
Qed.

Lemma analyze_method_fields (method_node : node) (content : str) :
  let m := analyze_method word method_node content in
  Method.name m = name_of method_node
  /\ Method.selectors m = flat_map (selector_values word) (walk method_node)
  /\ Method.schemaProperties m = flat_map schema_values (walk method_node)
  /\ Method.complexity m = calculate_method_complexity method_node.
Proof.
  unfold analyze_method.
  rewrite fold_scan_selector, fold_scan_schema_property.
  destruct (mem (name_of method_node) _);
    [|destruct (mem (name_of method_node) _)];
    destruct (negb (lineno_of method_node =? 0)
              && negb (end_lineno_of method_node =? 0));
    cbn; auto.
Qed.

Lemma analyze_method_returnType (method_node : node) (content : str) :
  Method.returnType (analyze_method word method_node content)
  = if mem (name_of method_node) [lit "ingredients"; lit "instructions"]
    then lit "string[]"
    else if mem (name_of method_node)
              [lit "total_time"; lit "cook_time"; lit "prep_time"]
    then lit "number"
    else lit "string".
Proof.
  unfold analyze_method.
  rewrite fold_scan_selector, fold_scan_schema_property.
  destruct (mem (name_of method_node) _);
    [|destruct (mem (name_of method_node) _)];
    destruct (negb (lineno_of method_node =? 0)
              && negb (end_lineno_of method_node =? 0));
    reflexivity.
Qed.

(** *** The two loops of [analyze_scraper] *)

Lemma fold_append_import (f : alias -> str) (names : list alias)
  (a : Analysis.t) :
  fold_left (fun a alias => Analysis.append_import a (f alias)) names a
  = Analysis.mk (Analysis.className a) (Analysis.hostName a)
      (Analysis.methods a) (Analysis.imports a ++ map f names)
      (Analysis.complexity a) (Analysis.parsingStrategy a)
      (Analysis.filePath a).
Proof.
  revert a; induction names as [|x l IH]; intros a; cbn [fold_left map].
  - rewrite app_nil_r. now destruct a.
  - rewrite IH. cbn. now rewrite <- app_assoc.
Qed.

Lemma collect_import_eq (a : Analysis.t) (n : node) :
  collect_import a n
  = Analysis.mk (Analysis.className a) (Analysis.hostName a)
      (Analysis.methods a) (Analysis.imports a ++ import_names n)
      (Analysis.complexity a) (Analysis.parsingStrategy a)
      (Analysis.filePath a).
Proof.
  assert (E : a = Analysis.mk (Analysis.className a) (Analysis.hostName a)
      (Analysis.methods a) (Analysis.imports a ++ [])
      (Analysis.complexity a) (Analysis.parsingStrategy a)
      (Analysis.filePath a)) by (rewrite app_nil_r; now destruct a).
  destruct n as [names|m names lv| | | | | |]; cbn [collect_import import_names];
    try exact E.
  - apply fold_append_import.
  - destruct m as [m|]; [|exact E].
    destruct (nonempty m); [|exact E]. apply fold_append_import.
Qed.

Lemma fold_collect_import (l : list node) (a : Analysis.t) :
  fold_left collect_import l a
  = Analysis.mk (Analysis.className a) (Analysis.hostName a)
      (Analysis.methods a) (Analysis.imports a ++ flat_map import_names l)
      (Analysis.complexity a) (Analysis.parsingStrategy a)
      (Analysis.filePath a).
Proof.
  revert a; induction l as [|x l IH]; intros a; cbn [fold_left flat_map].
  - rewrite app_nil_r. now destruct a.
  - rewrite IH, collect_import_eq. cbn. now rewrite <- app_assoc.
Qed.

Lemma visit_item_eq (content : str) (a : Analysis.t) (item : node) :
  visit_item word content a item
  = Analysis.mk (Analysis.className a)
      (last (host_values item) (Analysis.hostName a))
      (Analysis.methods a
       ++ map (fun i => analyze_method word i content)
              (filter is_FunctionDef [item]))
      (Analysis.imports a) (Analysis.complexity a)
      (Analysis.parsingStrategy a) (Analysis.filePath a).
Proof.
  unfold visit_item, host_values. cbn [filter].
  destruct (is_FunctionDef item); cbn [andb map].
  - destruct (eqb (name_of item) (lit "host")); [|reflexivity].
    destruct (extract_host_name item) as [h|]; [|reflexivity].
    destruct (nonempty h); reflexivity.
  - rewrite app_nil_r. now destruct a.
Qed.

Lemma fold_visit_item (content : str) (body : list node) (a : Analysis.t) :
  fold_left (visit_item word content) body a
  = Analysis.mk (Analysis.className a)
      (last (flat_map host_values body) (Analysis.hostName a))
      (Analysis.methods a
       ++ map (fun i => analyze_method word i content)
              (filter is_FunctionDef body))
      (Analysis.imports a) (Analysis.complexity a)
      (Analysis.parsingStrategy a) (Analysis.filePath a).
Proof.
  revert a; induction body as [|x l IH]; intros a; cbn [fold_left flat_map].
  - cbn. rewrite app_nil_r. now destruct a.
  - rewrite IH, visit_item_eq. cbn [Analysis.className Analysis.hostName
      Analysis.methods Analysis.imports Analysis.complexity
      Analysis.parsingStrategy Analysis.filePath].
    rewrite last_app_default, <- app_assoc, <- map_app.
    rewrite <- filter_app. reflexivity.
Qed.

Lemma visit_class_eq (content : str) (a : Analysis.t) (n : node) :
  visit_class word content a n
  = Analysis.mk
      (last (map name_of (filter is_ClassDef [n])) (Analysis.className a))
      (last (flat_map host_values (body_of n)) (Analysis.hostName a))
      (Analysis.methods a
       ++ map (fun i => analyze_method word i content) (method_nodes n))
      (Analysis.imports a) (Analysis.complexity a)
      (Analysis.parsingStrategy a) (Analysis.filePath a).
Proof.
  destruct n; try (cbn; rewrite app_nil_r; now destruct a).
  cbn [visit_class]. rewrite fold_visit_item. reflexivity.
Qed.

Lemma fold_visit_class (content : str) (l : list node) (a : Analysis.t) :
  fold_left (visit_class word content) l a
  = Analysis.mk
      (last (map name_of (filter is_ClassDef l)) (Analysis.className a))
      (last (flat_map (fun c => flat_map host_values (body_of c))
                      (filter is_ClassDef l))
            (Analysis.hostName a))
      (Analysis.methods a
       ++ flat_map (fun c => map (fun i => analyze_method word i content)
                                 (method_nodes c))
                   (filter is_ClassDef l))
      (Analysis.imports a) (Analysis.complexity a)
      (Analysis.parsingStrategy a) (Analysis.filePath a).
Proof.
  revert a; induction l as [|x l IH]; intros a; cbn [fold_left].
  - cbn. rewrite app_nil_r. now destruct a.
  - rewrite IH, visit_class_eq. cbn [Analysis.className Analysis.hostName
      Analysis.methods Analysis.imports Analysis.complexity
      Analysis.parsingStrategy Analysis.filePath].
    change (x :: l) with ([x] ++ l).
    rewrite filter_app, map_app, !flat_map_app, !last_app_default,
      <- app_assoc.
    f_equal.
    + destruct x; cbn; try reflexivity. now rewrite app_nil_r.
    + f_equal. destruct x; cbn; try reflexivity. now rewrite app_nil_r.
Qed.

(** The report, field by field. *)
Lemma analyze_tree_fields (file_path content : str) (tree : node) :
  let r := analyze_tree word lower file_path content tree in
  Analysis.className r = last (map name_of (classes tree)) []
  /\ Analysis.hostName r
     = last (flat_map (fun c => flat_map host_values (body_of c))
                      (classes tree)) []
  /\ Analysis.methods r
     = flat_map (fun c => map (fun i => analyze_method word i content)
                              (method_nodes c))
                (classes tree)
  /\ Analysis.imports r = flat_map import_names (walk tree)
  /\ Analysis.complexity r = determine_complexity r
  /\ Analysis.parsingStrategy r = determine_parsing_strategy lower r content
  /\ Analysis.filePath r = file_path.
Proof.
  unfold analyze_tree. rewrite fold_collect_import, fold_visit_class.
  cbn. repeat split; reflexivity.
Qed.

(** *** Claims about the class loop *)

(** C1 (as amended).  The methods of every class the walk visits are
    appended to one flat list, class after class in visit order and, inside
    a class, in body order.  [className] is the name of the last class
    visited, or the empty string when there is none.  [hostName] is the last
    non-empty host literal found over all the [host] methods of all visited
    classes: a later class replaces it only when it has such a method, and
    it stays empty when no class has one. *)
Theorem report_accumulates_methods_last_class_names
  (file_path content : str) (tree : node) :
  let r := analyze_tree word lower file_path content tree in
  Analysis.methods r
  = flat_map (fun c => map (fun i => analyze_method word i content)
                           (method_nodes c))
             (classes tree)
  /\ Analysis.className r = last (map name_of (classes tree)) []
  /\ Analysis.hostName r
     = last (flat_map (fun c => flat_map host_values (body_of c))
                      (classes tree)) [].
Proof.
  pose proof (analyze_tree_fields file_path content tree) as H.
  cbv zeta in *. tauto.
Qed.

Section Parsed.

Variable parse : str -> option node.

(** C8.  When the file is read and parsed and its tree holds no class
    definition, [analyze_scraper] returns a report whose [className] and
    [hostName] are empty and whose [methods] list is empty. *)
Theorem no_class_gives_empty_identity
  (file_path content : str) (tree : node) (w : world) :
  files w file_path = Some content ->
  parse content = Some tree ->
  forallb (fun n => negb (is_ClassDef n)) (preorder tree) = true ->
  exists w' r,
    analyze_scraper word lower parse file_path w = (w', Ok r)
    /\ Analysis.className r = []
    /\ Analysis.hostName r = []
    /\ Analysis.methods r = [].
Proof.
  intros Hf Hp Hc.
  unfold analyze_scraper, bind, read_text, ast_parse. rewrite Hf, Hp.
  eexists; eexists; split; [reflexivity|].
  assert (E : classes tree = []).
  { apply filter_none. intros x Hx. apply walk_In in Hx.
    rewrite forallb_forall in Hc. apply Hc in Hx.
    now apply negb_true_iff in Hx. }
  pose proof (analyze_tree_fields file_path content tree) as H.
  cbv zeta in H. rewrite E in H. cbn in H. tauto.
Qed.

End Parsed.

Lemma first_return_str_skip (pre l : list node) :
  (forall s, ~ In (Return (Some (Str s))) pre) ->
  first_return_str (pre ++ l) = first_return_str l.
Proof.
  induction pre as [|x pre IH]; intros H; [reflexivity|].
  assert (IH' : first_return_str (pre ++ l) = first_return_str l).
  { apply IH. intros s Hs. apply (H s). now right. }
  destruct x as [| | | | |[[| | | | | |s|]|]| |]; try exact IH'.
  elim (H s). now left.
Qed.

(** C10.  In a method named [host] whose first returned string literal, in
    walk order, is the empty string, [extract_host_name] yields the empty
    string, which is falsy: the method contributes no host value, the item
    only appends its method record and [hostName] keeps the value it had
    before (the initial empty string or what an earlier [host] method
    set). *)
Theorem empty_host_literal_keeps_hostName
  (content : str) (analysis : Analysis.t) (item : node)
  (pre post : list node) :
  is_FunctionDef item = true ->
  name_of item = lit "host" ->
  walk item = pre ++ Return (Some (Str [])) :: post ->
  (forall s, ~ In (Return (Some (Str s))) pre) ->
  extract_host_name item = Some []
  /\ host_values item = []
  /\ visit_item word content analysis item
     = Analysis.append_method analysis (analyze_method word item content)
  /\ Analysis.hostName (visit_item word content analysis item)
     = Analysis.hostName analysis.
Proof.
  intros Hf Hn Hw Hpre.
  assert (E : extract_host_name item = Some []).
  { unfold extract_host_name. rewrite Hw, first_return_str_skip by assumption.
    reflexivity. }
  split; [exact E|]. split.
  - unfold host_values. now rewrite Hf, Hn, eqb_refl, E.
  - unfold visit_item. rewrite Hf, Hn, eqb_refl, E. cbn. split; reflexivity.
Qed.

(** *** Claims about one method *)

Lemma returnType_by_node_name (method_node : node) (content : str) :
  let m := analyze_method word method_node content in
  let listy := name_of method_node = lit "ingredients"
               \/ name_of method_node = lit "instructions" in
  let timed := name_of method_node = lit "total_time"
               \/ name_of method_node = lit "cook_time"
               \/ name_of method_node = lit "prep_time" in
  (Method.returnType m = lit "string[]" <-> listy)
  /\ (Method.returnType m = lit "number" <-> timed)
  /\ (Method.returnType m = lit "string" <-> ~ listy /\ ~ timed).
Proof.
  clear lower. cbv zeta.
  rewrite analyze_method_returnType.
  set (n := name_of method_node).
  assert (X : (n = lit "ingredients" \/ n = lit "instructions") ->
              (n = lit "total_time" \/ n = lit "cook_time"
               \/ n = lit "prep_time") -> False).
  { intros [H|H] [K|[K|K]]; rewrite H in K; vm_compute in K; discriminate K. }
  assert (M1 : mem n [lit "ingredients"; lit "instructions"] = true
               <-> n = lit "ingredients" \/ n = lit "instructions").
  { rewrite mem_In. cbn [In]. intuition congruence. }
  assert (M2 : mem n [lit "total_time"; lit "cook_time"; lit "prep_time"]
               = true
               <-> n = lit "total_time" \/ n = lit "cook_time"
                   \/ n = lit "prep_time").
  { rewrite mem_In. cbn [In]. intuition congruence. }
  destruct (mem n [lit "ingredients"; lit "instructions"]);
    [|destruct (mem n [lit "total_time"; lit "cook_time"; lit "prep_time"])];
    repeat split; try tauto;
    try (intros H; vm_compute in H; discriminate H);
    try (exfalso;
         match goal with
         | H : lit _ = lit _ |- _ => vm_compute in H; discriminate H
         end);
    try (intros H; exfalso;
         assert (true = false -> False) by discriminate; tauto).
Qed.

(** C7.  For a method definition named [name], the record that
    [analyze_method] returns carries that name, and its [returnType] is
    ["string[]"] exactly when [name] is [ingredients] or [instructions],
    ["number"] exactly when [name] is [total_time], [cook_time] or
    [prep_time], and ["string"] exactly for every other name. *)
Theorem returnType_follows_name
  (name : str) (lineno end_lineno : nat) (args : node)
  (body decorator_list : list node) (returns : option node)
  (type_params : list node) (content : str) :
  let m := analyze_method word
             (FunctionDef name lineno end_lineno args body decorator_list
                returns type_params) content in
  let listy := name = lit "ingredients" \/ name = lit "instructions" in
  let timed := name = lit "total_time" \/ name = lit "cook_time"
               \/ name = lit "prep_time" in
  Method.name m = name
  /\ (Method.returnType m = lit "string[]" <-> listy)
  /\ (Method.returnType m = lit "number" <-> timed)
  /\ (Method.returnType m = lit "string" <-> ~ listy /\ ~ timed).
Proof.
  cbv zeta. split.
  - now destruct (analyze_method_fields
                    (FunctionDef name lineno end_lineno args body
                       decorator_list returns type_params) content)
      as [-> _].
  - apply (returnType_by_node_name
             (FunctionDef name lineno end_lineno args body decorator_list
                returns type_params) content).
Qed.

Lemma letter_matches_css_element (c : char) :
  is_letter c = true -> matches (css_element word) [c].
Proof.
  intros H. unfold css_element.
  change [c] with ([c] ++ ([] ++ [])).
  constructor; [now constructor|].
  constructor; [constructor|]. apply MAltR. constructor.
Qed.

(** C9.  The selector predicate accepts every text that holds an ASCII
    letter, because the element pattern matches the letter alone; so every
    string literal with a letter anywhere in the subtree of a method is in
    the method's [selectors], whole. *)
Theorem literal_with_letter_is_selector
  (method_node : node) (content s : str) :
  In (Str s) (preorder method_node) ->
  existsb is_letter s = true ->
  extract_css_selector word s = Some s
  /\ In s (Method.selectors (analyze_method word method_node content)).
Proof.
  intros Hin Hl.
  assert (E : extract_css_selector word s = Some s).
  { unfold extract_css_selector, css_patterns. cbn [existsb].
    assert (S : search (css_element word) s = true).
    { apply existsb_split in Hl as [a [c [b [-> Hc]]]].
      apply search_spec. exists a, [c], b. split; [reflexivity|].
      now apply letter_matches_css_element. }
    rewrite S, orb_true_r. reflexivity. }
  split; [exact E|].
  destruct (analyze_method_fields method_node content) as [_ [-> _]].
  apply in_flat_map. exists (Str s). split; [now apply walk_In|].
  cbn [selector_values]. rewrite E.
  destruct s as [|c s]; [discriminate|]. now left.
Qed.

(** *** Claims about the imports *)

(** C6 (as amended).  The imports list is the concatenation, over the nodes
    in the order [ast.walk] yields them, of what each node contributes; that
    order is breadth-first (the root, then every node of depth 1 from left
    to right, then every node of depth 2, ...), not the order of the source
    text.  A plain import contributes each imported name as it is, a
    from-import with a module contributes the module, a dot and the name for
    each imported name, a from-import without module contributes nothing.
    Nothing is removed or reordered afterwards. *)
Theorem imports_follow_breadth_first_walk
  (file_path content : str) (tree : node) :
  Analysis.imports (analyze_tree word lower file_path content tree)
  = flat_map import_names (walk tree)
  /\ walk tree = levels_upto (size tree) [tree]
  /\ (forall names, import_names (Import names) = map alias_name names)
  /\ (forall c module names level,
        import_names (ImportFrom (Some (c :: module)) names level)
        = map (fun a => (c :: module) ++ lit "." ++ alias_name a) names)
  /\ (forall names level, import_names (ImportFrom None names level) = []).
Proof.
  pose proof (analyze_tree_fields file_path content tree) as H.
  cbv zeta in H. destruct H as (_ & _ & _ & H & _).
  split; [exact H|]. split; [apply walk_levels|].
  repeat split; reflexivity.
Qed.

(** *** Claims about the two classifications *)

Lemma fold_add_shift (xs : list Z) (a : Z) :
  fold_left Z.add xs a = (a + sum xs)%Z.
Proof.
  unfold sum. revert a; induction xs as [|x xs IH]; intros a; simpl.
  - lia.
  - rewrite IH, (IH x). lia.
Qed.

Lemma sum_cons (x : Z) (xs : list Z) : sum (x :: xs) = (x + sum xs)%Z.
Proof. unfold sum at 1. simpl. apply fold_add_shift. Qed.

Lemma sum_nonneg (xs : list Z) : Forall (fun x => 0 <= x)%Z xs -> (0 <= sum xs)%Z.
Proof.
  induction 1 as [|x xs Hx _ IH]; [unfold sum; simpl; lia|].
  rewrite sum_cons. lia.
Qed.

Lemma selector_count_nonneg (ms : list Method.t) :
  (0 <= sum (map (fun method => len (Method.selectors method)) ms))%Z.
Proof.
  apply sum_nonneg, Forall_forall. intros x Hx.
  apply in_map_iff in Hx as [m [<- _]]. unfold len. lia.
Qed.

(** C2.  The tier returned for an analysis depends only on the sum of its
    methods' complexity scores and on the number of its methods: it is
    ["complex"] exactly when the sum exceeds 20 or the number exceeds 15,
    otherwise ["medium"] exactly when the sum exceeds 10 or the number
    exceeds 8, otherwise ["simple"]; a sum of exactly 20 and a number of
    exactly 15 give ["medium"].  The report's [complexity] field is this
    tier. *)
Theorem tier_is_function_of_total_and_count
  (analysis : Analysis.t) (total count : Z) :
  total = sum (map Method.complexity (Analysis.methods analysis)) ->
  count = len (Analysis.methods analysis) ->
  (determine_complexity analysis = lit "complex"
     <-> (total > 20 \/ count > 15)%Z)
  /\ (determine_complexity analysis = lit "medium"
     <-> (~ (total > 20 \/ count > 15) /\ (total > 10 \/ count > 8))%Z)
  /\ (determine_complexity analysis = lit "simple"
     <-> (~ (total > 20 \/ count > 15) /\ ~ (total > 10 \/ count > 8))%Z)
  /\ ((total = 20 -> count <= 15 -> determine_complexity analysis = lit "medium")
      /\ (count = 15 -> total <= 20 ->
          determine_complexity analysis = lit "medium"))%Z
  /\ (forall file_path content tree,
        analysis = analyze_tree word lower file_path content tree ->
        Analysis.complexity analysis = determine_complexity analysis).
Proof.
  intros Ht Hc.
  assert (R : forall file_path content tree,
            analysis = analyze_tree word lower file_path content tree ->
            Analysis.complexity analysis = determine_complexity analysis).
  { intros file_path content tree ->.
    apply (analyze_tree_fields file_path content tree). }
  assert (D : determine_complexity analysis
              = if (total >? 20)%Z || (count >? 15)%Z then lit "complex"
                else if (total >? 10)%Z || (count >? 8)%Z then lit "medium"
                else lit "simple").
  { unfold determine_complexity. now rewrite <- Ht, <- Hc. }
  refine (conj _ (conj _ (conj _ (conj _ R)))); rewrite D; clear D R Ht Hc.
  all: assert (X1 : lit "complex" <> lit "medium")
         by (vm_compute; discriminate).
  all: assert (X2 : lit "complex" <> lit "simple")
         by (vm_compute; discriminate).
  all: assert (X3 : lit "medium" <> lit "simple")
         by (vm_compute; discriminate).
  all: destruct (Z.gtb_spec total 20), (Z.gtb_spec count 15),
         (Z.gtb_spec total 10), (Z.gtb_spec count 8); cbn [orb].
  all: intuition (try lia; try congruence).
Qed.

(** C3.  The strategy returned for an analysis and a file text depends only
    on whether the lowered text contains ["schema"] or ["json"] and on the
    total number of selectors: with such a keyword it is ["mixed"] when
    there is at least one selector and ["schema"] when there is none;
    without it is ["selectors"].  Two analyses with the same number of
    selectors get the same strategy, whatever their schema properties.  The
    report's [parsingStrategy] field is this strategy. *)
Theorem strategy_is_function_of_keyword_and_selectors
  (analysis : Analysis.t) (content : str) (keyword : bool)
  (selector_count : Z) :
  keyword = contains (lit "schema") (lower content)
            || contains (lit "json") (lower content) ->
  selector_count
  = sum (map (fun method => len (Method.selectors method))
             (Analysis.methods analysis)) ->
  (determine_parsing_strategy lower analysis content = lit "mixed"
     <-> keyword = true /\ (selector_count > 0)%Z)
  /\ (determine_parsing_strategy lower analysis content = lit "schema"
     <-> keyword = true /\ selector_count = 0%Z)
  /\ (determine_parsing_strategy lower analysis content = lit "selectors"
     <-> keyword = false)
  /\ (forall analysis',
        sum (map (fun method => len (Method.selectors method))
                 (Analysis.methods analysis')) = selector_count ->
        determine_parsing_strategy lower analysis' content
        = determine_parsing_strategy lower analysis content)
  /\ (forall file_path tree,
        analysis = analyze_tree word lower file_path content tree ->
        Analysis.parsingStrategy analysis
        = determine_parsing_strategy lower analysis content).
Proof.
  intros Hk Hs.
  assert (R : forall file_path tree,
            analysis = analyze_tree word lower file_path content tree ->
            Analysis.parsingStrategy analysis
            = determine_parsing_strategy lower analysis content).
  { intros file_path tree ->.
    apply (analyze_tree_fields file_path content tree). }
  assert (D : forall a,
            sum (map (fun method => len (Method.selectors method))
                     (Analysis.methods a)) = selector_count ->
            determine_parsing_strategy lower a content
            = if keyword
              then if (selector_count >? 0)%Z then lit "mixed"
                   else lit "schema"
              else lit "selectors").
  { intros a Ha. unfold determine_parsing_strategy.
    now rewrite <- Hk, Ha. }
  assert (P : (0 <= selector_count)%Z)
    by (rewrite Hs; apply selector_count_nonneg).
  refine (conj _ (conj _ (conj _ (conj _ R)))).
  4: { intros a' Ha'. rewrite (D a' Ha'), (D analysis); auto. }
  all: rewrite (D analysis) by auto; clear D R Hk Hs.
  all: assert (X1 : lit "mixed" <> lit "schema")
         by (vm_compute; discriminate).
  all: assert (X2 : lit "mixed" <> lit "selectors")
         by (vm_compute; discriminate).
  all: assert (X3 : lit "schema" <> lit "selectors")
         by (vm_compute; discriminate).
  all: destruct keyword, (Z.gtb_spec selector_count 0).
  all: intuition (try lia; try congruence).
Qed.

(** *** Claims about the complexity score *)

(** [int] truncates toward zero: it is the floor of a non-negative number
    and the ceiling of a non-positive one. *)
Lemma int_truncates (x : Q) :
  ((0 <= x)%Q -> int x = Qfloor x) /\ ((x <= 0)%Q -> int x = Qceiling x).
Proof.
  destruct x as [n d]. unfold int, Qceiling, Qfloor, Qle, Qopp. simpl.
  split; intros H.
  - apply Z.quot_div_nonneg; lia.
  - rewrite <- (Z.opp_involutive n) at 1.
    rewrite Z.quot_opp_l by lia. f_equal. apply Z.quot_div_nonneg; lia.
Qed.

Lemma count_ext {A} (f g : A -> bool) (l : list A) :
  (forall x, f x = g x) -> count f l = count g l.
Proof.
  intros H. induction l as [|x l IH]; [reflexivity|].
  simpl. now rewrite H, IH.
Qed.

Lemma adds_one_class (n : node) : adds_one n = scores_one n.
Proof.
  unfold adds_one. destruct n as [| | | | | | |k ch]; try destruct k;
    reflexivity.
Qed.

Lemma adds_half_class (n : node) : adds_half n = scores_half n.
Proof.
  unfold adds_half. destruct n as [| | | | | | |k ch]; try destruct k;
    reflexivity.
Qed.

(** C4 (as amended).  The complexity of a method record is the truncation
    toward zero of the total obtained from 0 by adding 1 for each [ast.If],
    [ast.While], [ast.For] and [ast.Try] node and one half for each
    [ast.Call] node anywhere in the subtree of the method; that is the
    number of the former plus half the number of the latter, rounded down.
    Nodes of any other class add nothing.  The score is never negative, for
    the method alone and for every method of a report. *)
Theorem method_complexity_is_truncated_weighted_count
  (method_node : node) (content : str) :
  let ones := count scores_one (preorder method_node) in
  let halves := count scores_half (preorder method_node) in
  let c := Method.complexity (analyze_method word method_node content) in
  c = int (0 + inject_Z ones * 1 + inject_Z halves * (1 # 2))%Q
  /\ c = (ones + halves / 2)%Z
  /\ (0 <= c)%Z
  /\ (forall file_path content' tree,
        Forall (fun m => 0 <= Method.complexity m)%Z
          (Analysis.methods
             (analyze_tree word lower file_path content' tree))).
Proof.
  cbv zeta.
  assert (N : forall n c, (0 <= Method.complexity (analyze_method word n c))%Z).
  { intros n c.
    destruct (analyze_method_fields n c) as (_ & _ & _ & ->).
    rewrite calculate_method_complexity_eq.
    pose proof (count_nonneg adds_one (walk n)).
    pose proof (count_nonneg adds_half (walk n)).
    apply Z.div_pos; lia. }
  destruct (analyze_method_fields method_node content) as (_ & _ & _ & E).
  rewrite <- (@count_ext _ adds_one scores_one _ adds_one_class),
          <- (@count_ext _ adds_half scores_half _ adds_half_class).
  rewrite <- !(count_perm _ (walk_perm method_node)).
  repeat split.
  - rewrite E. unfold calculate_method_complexity. apply int_Qeq.
    apply fold_complexity_step.
  - rewrite E, calculate_method_complexity_eq.
    rewrite Z.mul_comm, Z.div_add_l by lia. reflexivity.
  - apply N.
  - intros file_path content' tree.
    destruct (analyze_tree_fields file_path content' tree) as (_ & _ & -> & _).
    apply Forall_forall. intros m Hm.
    apply in_flat_map in Hm as [c [_ Hm]].
    apply in_map_iff in Hm as [i [<- _]]. apply N.
Qed.

(** *** Claims about the command line *)

Section Process.

Variable parse : str -> option node.
Variable dumps : Analysis.t -> str.
Variable traceback : exn -> str.
Variable exception_ignored : str.

Lemma wrong_argument_count_usage_result (argv : list str) (w : world) :
  length argv <> 2 ->
  run word lower parse dumps traceback exception_ignored argv w
  = match device w with
    | Writable =>
        (mkWorld (files w) (stdout w ++ [usage]) (stderr w) (opened w)
           Writable [], 1%Z)
    | Closed =>
        (mkWorld (files w) (stdout w) (stderr w) (opened w) Closed [], 1%Z)
    | FailsAtExit =>
        (mkWorld (files w) (stdout w) (stderr w ++ [exception_ignored])
           (opened w) FailsAtExit [], 120%Z)
    | FailsInPrintAndAtExit =>
        (mkWorld (files w) (stdout w)
           (stderr w ++ [traceback WriteError; exception_ignored])
           (opened w) FailsInPrintAndAtExit [], 120%Z)
    | FailsInPrint =>
        (mkWorld (files w) (stdout w) (stderr w ++ [traceback WriteError])
           (opened w) FailsInPrint [], 1%Z)
    end.
Proof.
  intros H.
  assert (L : negb (len argv =? 2)%Z = true).
  { unfold len. destruct (Z.eqb_spec (Z.of_nat (length argv)) 2); [lia|].
    reflexivity. }
  unfold run, main. rewrite L.
  unfold bind, print, sys_exit, raise, start, finalize. cbn [device].
  destruct (device w); cbn; rewrite <- ?app_assoc; reflexivity.
Qed.

(** C5 (as amended).  When [sys.argv] does not hold exactly two entries (the
    script and one argument), the script prints the usage line to standard
    output, not to the error stream, opens no file and the run ends with a
    non-zero exit status.  On a writable standard output the line arrives
    there, the error stream is untouched and the status is 1.  When
    standard output cannot be written the line is lost, the error stream
    gets only the interpreter's own report of that failure, and the status
    is 1 or 120. *)
Theorem wrong_argument_count_prints_usage (argv : list str) (w : world) :
  length argv <> 2 ->
  run word lower parse dumps traceback exception_ignored argv w
  = match device w with
    | Writable =>
        (mkWorld (files w) (stdout w ++ [usage]) (stderr w) (opened w)
           Writable [], 1%Z)
    | Closed =>
        (mkWorld (files w) (stdout w) (stderr w) (opened w) Closed [], 1%Z)
    | FailsAtExit =>
        (mkWorld (files w) (stdout w) (stderr w ++ [exception_ignored])
           (opened w) FailsAtExit [], 120%Z)
    | FailsInPrintAndAtExit =>
        (mkWorld (files w) (stdout w)
           (stderr w ++ [traceback WriteError; exception_ignored])
           (opened w) FailsInPrintAndAtExit [], 120%Z)
    | FailsInPrint =>
        (mkWorld (files w) (stdout w) (stderr w ++ [traceback WriteError])
           (opened w) FailsInPrint [], 1%Z)
    end
  /\ snd (run word lower parse dumps traceback exception_ignored argv w)
     <> 0%Z
  /\ opened (fst (run word lower parse dumps traceback exception_ignored
                    argv w)) = opened w.
Proof.
  intros H. rewrite (@wrong_argument_count_usage_result argv w H).
  split; [reflexivity|].
  destruct (device w); cbn [fst snd opened];
    (split; [discriminate | reflexivity]).
Qed.

End Process.

End ScriptFacts.

(** ** The properties at sample inputs *)

Section AtSamples.

(** The scenario of the documentation.  Both methods of the class are
    reported, and the domain string of [host] is among its selectors. *)
Example foo_report_fields :
  Analysis.className foo_report = lit "FooScraper"
  /\ Analysis.hostName foo_report = lit "foo.com"
  /\ map Method.name (Analysis.methods foo_report)
     = [lit "host"; lit "ingredients"]
  /\ map Method.returnType (Analysis.methods foo_report)
     = [lit "string"; lit "string[]"]
  /\ map Method.selectors (Analysis.methods foo_report)
     = [[lit "foo.com"]; [lit ".recipe-ingredient"]]
  /\ map Method.complexity (Analysis.methods foo_report) = [0; 0]%Z
  /\ Analysis.complexity foo_report = lit "simple"
  /\ Analysis.parsingStrategy foo_report = lit "selectors".
Proof. vm_compute. repeat split; reflexivity. Qed.

(** C1, as stated, fails.  The walk visits class [A], then class [B]; [B]
    has no [host] method, so [B] alone would report an empty host name, yet
    the report keeps the host name that [A] set while it names [B]. *)
Example later_class_without_host_keeps_earlier_hostName :
  classes two_classes_tree = [class_a; class_b]
  /\ map Method.name (Analysis.methods two_classes_report)
     = [lit "host"; lit "title"]
  /\ Analysis.className two_classes_report = lit "B"
  /\ host_of_class class_b = []
  /\ Analysis.hostName two_classes_report = lit "a.com"
  /\ Analysis.hostName two_classes_report <> host_of_class class_b.
Proof.
  vm_compute. repeat split; try reflexivity. discriminate.
Qed.

(** C6, as stated, fails.  The import inside [helper] is written before the
    top-level import, and a pre-order walk meets it first; the report lists
    the top-level import first. *)
Example imports_are_not_in_source_order :
  flat_map import_names (preorder nested_import_tree)
  = [lit "json"; lit "re"]
  /\ Analysis.imports nested_import_report = [lit "re"; lit "json"]
  /\ Analysis.imports nested_import_report
     <> flat_map import_names (preorder nested_import_tree).
Proof.
  vm_compute. repeat split; try reflexivity. discriminate.
Qed.

(** C4, as stated, fails.  The method returns a conditional expression: its
    subtree holds one conditional and no call, so adding 1 for every
    conditional gives 1, yet the script scores the method 0, because
    [ast.IfExp] is not among the classes it tests. *)
Example conditional_expression_scores_nothing :
  count spec_construct (preorder label_method) = 1%Z
  /\ count scores_half (preorder label_method) = 0%Z
  /\ Method.complexity (analyze_method ascii_word label_method label_source)
     = 0%Z
  /\ Method.complexity (analyze_method ascii_word label_method label_source)
     <> int (0 + inject_Z (count spec_construct (preorder label_method)) * 1
             + inject_Z (count scores_half (preorder label_method))
               * (1 # 2))%Q.
Proof.
  vm_compute. repeat split; try reflexivity. discriminate.
Qed.

(** C5, as stated, fails.  Run without argument, the script leaves the error
    stream empty: the usage line goes to standard output. *)
Example usage_line_is_not_on_error_stream :
  snd (run_without_argument) = 1%Z
  /\ stdout (fst run_without_argument) = [usage]
  /\ stderr (fst run_without_argument) = []
  /\ ~ In usage (stderr (fst run_without_argument)).
Proof.
  vm_compute. repeat split; try reflexivity. intros [].
Qed.

Lemma tier_at_boundary :
  20%Z = sum (map Method.complexity (Analysis.methods boundary_analysis))
  /\ 15%Z = len (Analysis.methods boundary_analysis)
  /\ determine_complexity boundary_analysis = lit "medium".
Proof.
  assert (Ht : 20%Z = sum (map Method.complexity
                             (Analysis.methods boundary_analysis)))
    by reflexivity.
  assert (Hc : 15%Z = len (Analysis.methods boundary_analysis))
    by reflexivity.
  split; [exact Ht|]. split; [exact Hc|].
  destruct (@tier_is_function_of_total_and_count ascii_word ascii_lower
              boundary_analysis 20%Z 15%Z Ht Hc) as (_ & _ & _ & [B _] & _).
  apply B; [reflexivity | discriminate].
Defined.

Lemma strategy_ignores_schema_properties :
  true = contains (lit "schema") (ascii_lower (lit "import json"))
         || contains (lit "json") (ascii_lower (lit "import json"))
  /\ 1%Z = sum (map (fun method => len (Method.selectors method))
                   (Analysis.methods (one_selector [])))
  /\ determine_parsing_strategy ascii_lower (one_selector [lit "name"])
       (lit "import json")
     = determine_parsing_strategy ascii_lower (one_selector [])
         (lit "import json")
  /\ determine_parsing_strategy ascii_lower (one_selector [])
       (lit "import json") = lit "mixed".
Proof.
  assert (Hk : true = contains (lit "schema") (ascii_lower (lit "import json"))
                      || contains (lit "json")
                           (ascii_lower (lit "import json")))
    by reflexivity.
  assert (Hs : 1%Z = sum (map (fun method => len (Method.selectors method))
                            (Analysis.methods (one_selector []))))
    by reflexivity.
  destruct (@strategy_is_function_of_keyword_and_selectors ascii_word
              ascii_lower (one_selector []) (lit "import json") true 1%Z
              Hk Hs) as (M & _ & _ & I & _).
  split; [exact Hk|]. split; [exact Hs|]. split.
  - apply I. reflexivity.
  - apply M. split; reflexivity.
Defined.

Lemma usage_without_argument :
  length [lit "analyze_scraper.py"] <> 2
  /\ run ascii_word ascii_lower (parse_as foo_tree) no_dumps no_traceback
       no_message [lit "analyze_scraper.py"] empty_world
     = (mkWorld (files empty_world) [usage] [] [] Writable [], 1%Z).
Proof.
  assert (H : length [lit "analyze_scraper.py"] <> 2) by discriminate.
  split; [exact H|].
  exact (proj1 (@wrong_argument_count_prints_usage ascii_word ascii_lower
                  (parse_as foo_tree) no_dumps no_traceback no_message
                  [lit "analyze_scraper.py"] empty_world H)).
Defined.

Lemma no_class_module_report :
  files (world_with no_class_source) (lit "helper.py") = Some no_class_source
  /\ parse_as no_class_tree no_class_source = Some no_class_tree
  /\ forallb (fun n => negb (is_ClassDef n)) (preorder no_class_tree) = true
  /\ exists w' r,
       analyze_scraper ascii_word ascii_lower (parse_as no_class_tree)
         (lit "helper.py") (world_with no_class_source) = (w', Ok r)
       /\ Analysis.className r = []
       /\ Analysis.hostName r = []
       /\ Analysis.methods r = [].
Proof.
  assert (H1 : files (world_with no_class_source) (lit "helper.py")
               = Some no_class_source) by reflexivity.
  assert (H2 : parse_as no_class_tree no_class_source = Some no_class_tree)
    by reflexivity.
  assert (H3 : forallb (fun n => negb (is_ClassDef n))
                 (preorder no_class_tree) = true) by reflexivity.
  repeat (split; [assumption|]).
  apply (@no_class_gives_empty_identity ascii_word ascii_lower
           (parse_as no_class_tree) (lit "helper.py") no_class_source
           no_class_tree (world_with no_class_source) H1 H2 H3).
Defined.

Lemma host_domain_is_a_selector :
  In (Str (lit "foo.com")) (preorder (host_method "foo.com" 2))
  /\ existsb is_letter (lit "foo.com") = true
  /\ extract_css_selector ascii_word (lit "foo.com") = Some (lit "foo.com")
  /\ In (lit "foo.com")
       (Method.selectors
          (analyze_method ascii_word (host_method "foo.com" 2) foo_source)).
Proof.
  assert (H1 : In (Str (lit "foo.com"))
                 (preorder (host_method "foo.com" 2)))
    by (vm_compute; tauto).
  assert (H2 : existsb is_letter (lit "foo.com") = true) by reflexivity.
  split; [exact H1|]. split; [exact H2|].
  apply (@literal_with_letter_is_selector ascii_word
           (host_method "foo.com" 2) foo_source (lit "foo.com") H1 H2).
Defined.

Lemma empty_host_leaves_earlier_hostName :
  is_FunctionDef empty_host_method = true
  /\ name_of empty_host_method = lit "host"
  /\ walk empty_host_method
     = [empty_host_method; arguments_self]
       ++ Return (Some (Str [])) :: [Node (Other "arg") []; Str []]
  /\ (forall s, ~ In (Return (Some (Str s)))
                    [empty_host_method; arguments_self])
  /\ extract_host_name empty_host_method = Some []
  /\ Analysis.hostName
       (visit_item ascii_word two_classes_source analysis_in_class_a
          empty_host_method)
     = lit "a.com".
Proof.
  assert (H1 : is_FunctionDef empty_host_method = true) by reflexivity.
  assert (H2 : name_of empty_host_method = lit "host") by reflexivity.
  assert (H3 : walk empty_host_method
               = [empty_host_method; arguments_self]
                 ++ Return (Some (Str [])) :: [Node (Other "arg") []; Str []])
    by reflexivity.
  assert (H4 : forall s, ~ In (Return (Some (Str s)))
                           [empty_host_method; arguments_self]).
  { intros s [H|[H|[]]]; discriminate H. }
  destruct (@empty_host_literal_keeps_hostName ascii_word two_classes_source
              analysis_in_class_a empty_host_method _ _ H1 H2 H3 H4)
    as (E & _ & _ & K).
  repeat (split; [assumption|]). exact K.
Defined.

End AtSamples.

(** * Further properties of the script *)

(** ** The selector and schema predicates *)

Section Predicates.

Set Default Proof Using "Type".

Variable word : char -> bool.

Lemma matches_cat_cls (f : char -> bool) (r : regex) (p : str) :
  matches (Cat (Cls f) r) p ->
  exists c p', p = c :: p' /\ f c = true /\ matches r p'.
Proof.
  intros H. inversion H as [| |r1 r2 s1 s2 H1 H2| | | |]; subst.
  inversion H1; subst. eexists; eexists. split; [reflexivity|]. now split.
Qed.

Lemma has_letter_spec (text : str) :
  has_letter text = true
  <-> exists a c b, text = a ++ c :: b /\ is_letter c = true.
Proof.
  split.
  - apply existsb_split.
  - intros (a & c & b & -> & Hc). apply existsb_exists.
    exists c. split; [apply in_elt | exact Hc].
Qed.

Lemma has_class_or_id_spec (text : str) :
  has_class_or_id word text = true
  <-> exists a c d b, text = a ++ c :: d :: b
        /\ one_of ".#" c = true /\ word_or_hyphen word d = true.
Proof.
  induction text as [|x text IH]; cbn [has_class_or_id].
  - split; [discriminate|]. intros (a & c & d & b & E & _).
    destruct a; discriminate.
  - rewrite orb_true_iff, IH. split.
    + intros [H | (a & c & d & b & -> & Hc & Hd)].
      * destruct text as [|d text]; [discriminate|].
        apply andb_true_iff in H as [Hc Hd]. now exists [], x, d, text.
      * now exists (x :: a), c, d, b.
    + intros ([|y a] & c & d & b & E & Hc & Hd).
      * injection E as -> ->. left. now rewrite Hc, Hd.
      * injection E as -> ->. right. now exists a, c, d, b.
Qed.

Lemma search_css_element (text : str) :
  search (css_element word) text = has_letter text.
Proof.
  apply eq_true_iff_eq. rewrite search_spec, has_letter_spec. split.
  - intros (a & p & q & -> & H). apply matches_cat_cls in H
      as (c & p' & -> & Hc & _). now exists a, c, (p' ++ q).
  - intros (a & c & b & -> & Hc). exists a, [c], b.
    split; [reflexivity|]. unfold css_element.
    change [c] with ([c] ++ ([] ++ [])).
    constructor; [now constructor|].
    constructor; [constructor|]. apply MAltR. constructor.
Qed.

Lemma search_css_class_or_id (text : str) :
  search (css_class_or_id word) text = has_class_or_id word text.
Proof.
  apply eq_true_iff_eq. rewrite search_spec, has_class_or_id_spec. split.
  - intros (a & p & q & -> & H). apply matches_cat_cls in H
      as (c & p' & -> & Hc & H). apply matches_cat_cls in H
      as (d & p'' & -> & Hd & _). now exists a, c, d, (p'' ++ q).
  - intros (a & c & d & b & -> & Hc & Hd). exists a, [c; d], b.
    split; [reflexivity|]. unfold css_class_or_id, Plus.
    change [c; d] with ([c] ++ ([d] ++ [])).
    constructor; [now constructor|].
    constructor; [now constructor | constructor].
Qed.

Lemma search_css_pseudo (text : str) :
  search (css_pseudo word) text = true -> has_letter text = true.
Proof.
  rewrite search_spec, has_letter_spec.
  intros (a & p & q & -> & H). apply matches_cat_cls in H
    as (c & p' & -> & Hc & _). now exists a, c, (p' ++ q).
Qed.

Lemma extract_css_selector_eq (text : str) :
  extract_css_selector word text
  = if has_letter text || has_class_or_id word text
    then Some text else None.
Proof.
  unfold extract_css_selector, css_patterns. cbn [existsb].
  rewrite search_css_element, search_css_class_or_id, orb_false_r.
  destruct (has_letter text) eqn:L.
  - now rewrite orb_true_r.
  - destruct (search (css_pseudo word) text) eqn:P.
    + apply search_css_pseudo in P. congruence.
    + now rewrite !orb_false_r, orb_false_l.
Qed.

(** X1.  [extract_css_selector] returns the text unchanged when the text
    holds an ASCII letter, or a dot or hash directly followed by a character
    of [[\w-]]; it returns [None] for every other text (for instance the
    empty text, or digits and spaces only). *)
Theorem extract_css_selector_decides (text : str) :
  extract_css_selector word text
  = if has_letter text || has_class_or_id word text
    then Some text else None.
Proof. apply extract_css_selector_eq. Qed.

(** X2.  The third pattern (pseudo selectors) never decides: every text it
    matches is already matched by the second pattern, so the result of the
    three patterns is the result of the first two. *)
Theorem pseudo_pattern_is_redundant (text : str) :
  (search (css_pseudo word) text = true ->
   search (css_element word) text = true)
  /\ existsb (fun pattern => search pattern text) (css_patterns word)
     = existsb (fun pattern => search pattern text)
         [css_class_or_id word; css_element word].
Proof.
  assert (H : search (css_pseudo word) text = true ->
              search (css_element word) text = true).
  { intros P. rewrite search_css_element. now apply search_css_pseudo. }
  split; [exact H|].
  unfold css_patterns. cbn [existsb]. rewrite !orb_false_r.
  destruct (search (css_pseudo word) text) eqn:P.
  - rewrite (H eq_refl). now rewrite !orb_true_r.
  - now rewrite orb_false_r.
Qed.

Lemma find_first {A} (f : A -> bool) (l : list A) (x : A) :
  find f l = Some x
  <-> exists pre post, l = pre ++ x :: post /\ f x = true
        /\ forall y, In y pre -> f y = false.
Proof.
  induction l as [|z l IH]; simpl.
  - split; [discriminate|]. intros (pre & post & E & _).
    destruct pre; discriminate.
  - destruct (f z) eqn:Fz.
    + split.
      * intros [= <-]. exists [], l. repeat split; auto. intros y [].
      * intros ([|y pre] & post & E & Fx & Hpre).
        -- now injection E as ->.
        -- injection E as E1 _. rewrite (Hpre z) in Fz by (left; congruence).
           discriminate.
    + rewrite IH. split.
      * intros (pre & post & -> & Fx & Hpre). exists (z :: pre), post.
        repeat split; auto. intros y [<-|Hy]; auto.
      * intros ([|y pre] & post & E & Fx & Hpre).
        -- injection E as E1 _. congruence.
        -- injection E as E1 E2. subst l. exists pre, post.
           repeat split; auto.
           intros y' Hy'. apply Hpre. now right.
Qed.

Lemma schema_patterns_have_letter (p : str) :
  In p schema_patterns -> has_letter p = true.
Proof.
  revert p. apply forallb_forall. reflexivity.
Qed.

Lemma has_letter_app (a p b : str) :
  has_letter p = true -> has_letter (a ++ p ++ b) = true.
Proof.
  intros H. unfold has_letter in *.
  now rewrite !existsb_app, H, orb_true_r.
Qed.

Lemma extract_schema_property_sound (text p : str) :
  extract_schema_property text = Some p ->
  In p schema_patterns /\ exists a b, text = a ++ p ++ b.
Proof.
  unfold extract_schema_property. intros H. apply find_some in H as [Hin Hc].
  split; [exact Hin|]. now apply contains_spec.
Qed.

Lemma schema_literal_accepted (text p : str) :
  extract_schema_property text = Some p ->
  extract_css_selector word text = Some text.
Proof.
  intros H. apply extract_schema_property_sound in H as [Hin (a & b & ->)].
  rewrite extract_css_selector_eq, has_letter_app; [reflexivity|].
  now apply schema_patterns_have_letter.
Qed.

(** X3.  [extract_schema_property] returns the first entry of the fixed
    vocabulary, in list order, that occurs in the text as a contiguous
    part; it returns [None] exactly when no entry occurs in the text. *)
Theorem extract_schema_property_first_match (text p : str) :
  (extract_schema_property text = Some p
   <-> exists pre post,
         schema_patterns = pre ++ p :: post
         /\ (exists a b, text = a ++ p ++ b)
         /\ forall q, In q pre -> ~ exists a b, text = a ++ q ++ b)
  /\ (extract_schema_property text = None
      <-> forall q, In q schema_patterns -> ~ exists a b, text = a ++ q ++ b).
Proof.
  unfold extract_schema_property. split.
  - rewrite find_first. split.
    + intros (pre & post & E & Hc & Hpre). exists pre, post.
      split; [exact E|]. split; [now apply contains_spec|].
      intros q Hq Hex. apply contains_spec in Hex.
      rewrite (Hpre q Hq) in Hex. discriminate.
    + intros (pre & post & E & Hc & Hpre). exists pre, post.
      split; [exact E|]. split; [now apply contains_spec|].
      intros q Hq. destruct (contains q text) eqn:C; [|reflexivity].
      elim (Hpre q Hq). now apply contains_spec.
  - split.
    + intros H q Hq Hex. apply contains_spec in Hex.
      rewrite (find_none _ _ H q Hq) in Hex. discriminate.
    + intros H. destruct (find _ schema_patterns) as [q|] eqn:F;
        [|reflexivity].
      apply find_some in F as [Hq Hc]. elim (H q Hq).
      now apply contains_spec.
Qed.

(** X4.  Every text that yields a schema property is also accepted as a
    selector: each vocabulary entry holds a letter, and a text with a letter
    matches the element pattern.  So a string literal of a method that
    yields a schema property is recorded twice in the method's record: the
    property among its schema properties and the whole literal among its
    selectors. *)
Theorem schema_property_text_is_selector (text p : str) :
  extract_schema_property text = Some p ->
  extract_css_selector word text = Some text
  /\ forall method_node content,
       In (Str text) (preorder method_node) ->
       In p (Method.schemaProperties
               (analyze_method word method_node content))
       /\ In text (Method.selectors
                     (analyze_method word method_node content)).
Proof.
  intros H. pose proof (schema_literal_accepted _ H) as A.
  split; [exact A|]. intros method_node content Hin.
  apply walk_In in Hin.
  destruct (analyze_method_fields word method_node content)
    as (_ & -> & -> & _).
  pose proof (extract_schema_property_sound _ H) as [Hv (a & b & E)].
  apply schema_patterns_have_letter in Hv.
  assert (Np : nonempty p = true) by (destruct p; [discriminate|reflexivity]).
  assert (Nt : nonempty text = true).
  { rewrite E. destruct a; [destruct p; [discriminate|]|]; reflexivity. }
  split; apply in_flat_map; exists (Str text); (split; [exact Hin|]).
  - cbn [schema_values]. rewrite H, Np. now left.
  - cbn [selector_values]. rewrite A, Nt. now left.
Qed.

End Predicates.

(** ** What a report holds *)

Section Reports.

Set Default Proof Using "Type".

Variable word : char -> bool.
Variable lower : str -> str.

Lemma accepted_nonempty (s : str) :
  has_letter s || has_class_or_id word s = true -> nonempty s = true.
Proof. destruct s; [discriminate | reflexivity]. Qed.

Lemma selector_values_filter (l : list node) :
  flat_map (selector_values word) l
  = filter (fun s => has_letter s || has_class_or_id word s) (literals l).
Proof.
  unfold literals. induction l as [|n l IH]; [reflexivity|].
  cbn [flat_map]. rewrite filter_app, IH. f_equal.
  destruct n; try reflexivity. cbn [selector_values filter].
  rewrite extract_css_selector_eq.
  destruct (has_letter s || has_class_or_id word s) eqn:E; [|reflexivity].
  now rewrite (accepted_nonempty s E).
Qed.

Lemma schema_values_le (n : node) :
  length (schema_values n) <= length (selector_values word n).
Proof.
  destruct n; try apply Nat.le_refl. cbn [schema_values selector_values].
  destruct (extract_schema_property s) as [p|] eqn:E; [|apply Nat.le_0_l].
  rewrite (schema_literal_accepted word _ E).
  apply extract_schema_property_sound in E as [Hin (a & b & ->)].
  apply schema_patterns_have_letter in Hin.
  assert (N : nonempty (a ++ p ++ b) = true).
  { apply accepted_nonempty. now rewrite has_letter_app. }
  rewrite N. destruct (nonempty p); simpl; lia.
Qed.

Lemma schema_values_vocabulary (n : node) (p : str) :
  In p (schema_values n) -> In p schema_patterns.
Proof.
  destruct n; try (intros []). cbn [schema_values].
  destruct (extract_schema_property s) as [q|] eqn:E; [|intros []].
  destruct (nonempty q); [|intros []]. intros [<-|[]].
  now apply extract_schema_property_sound in E.
Qed.

Lemma flat_map_length_le {A B C} (f : A -> list B) (g : A -> list C)
  (l : list A) :
  (forall x, length (f x) <= length (g x)) ->
  length (flat_map f l) <= length (flat_map g l).
Proof.
  intros H. induction l as [|x l IH]; [apply Nat.le_refl|].
  simpl. rewrite !length_app. pose proof (H x). lia.
Qed.

Lemma method_lists (method_node : node) (content : str) :
  let m := analyze_method word method_node content in
  let lits := literals (walk method_node) in
  Method.selectors m
  = filter (fun s => has_letter s || has_class_or_id word s) lits
  /\ Forall (fun p => In p schema_patterns) (Method.schemaProperties m)
  /\ length (Method.schemaProperties m) <= length (Method.selectors m)
  /\ length (Method.selectors m) <= length lits.
Proof.
  cbv zeta.
  destruct (analyze_method_fields word method_node content)
    as (_ & -> & -> & _).
  split; [apply selector_values_filter|]. split.
  - apply Forall_forall. intros p Hp. apply in_flat_map in Hp as [n [_ Hp]].
    now apply schema_values_vocabulary in Hp.
  - split.
    + apply flat_map_length_le, schema_values_le.
    + rewrite selector_values_filter. apply filter_length_le.
Qed.

(** X5.  The selectors of a method record are exactly the string literals of
    the method, in walk order and with repetitions, that hold a letter or a
    dot or hash followed by a word character or hyphen; its schema
    properties all come from the fixed vocabulary; and it never has more
    schema properties than selectors, nor more selectors than the method
    has string literals. *)
Theorem method_lists_come_from_literals
  (method_node : node) (content : str) :
  let m := analyze_method word method_node content in
  let lits := literals (walk method_node) in
  Method.selectors m
  = filter (fun s => has_letter s || has_class_or_id word s) lits
  /\ Forall (fun p => In p schema_patterns) (Method.schemaProperties m)
  /\ length (Method.schemaProperties m) <= length (Method.selectors m)
  /\ length (Method.selectors m) <= length lits.
Proof. apply method_lists. Qed.

Lemma report_methods_In (file_path content : str) (tree : node)
  (m : Method.t) :
  In m (Analysis.methods (analyze_tree word lower file_path content tree))
  <-> exists c item,
        In c (preorder tree) /\ is_ClassDef c = true
        /\ In item (body_of c) /\ is_FunctionDef item = true
        /\ m = analyze_method word item content.
Proof.
  destruct (analyze_tree_fields word lower file_path content tree)
    as (_ & _ & -> & _).
  rewrite in_flat_map. unfold classes, method_nodes. split.
  - intros (c & Hc & Hm). apply filter_In in Hc as [Hc Hk].
    apply in_map_iff in Hm as (item & <- & Hi).
    apply filter_In in Hi as [Hi Hf]. exists c, item.
    repeat split; auto. now apply walk_In.
  - intros (c & item & Hc & Hk & Hi & Hf & ->). exists c. split.
    + apply filter_In. split; [now apply walk_In | exact Hk].
    + apply in_map_iff. exists item. split; [reflexivity|].
      apply filter_In. now split.
Qed.

(** X8.  A record is in the report's methods exactly when it is the analysis
    of a function definition that is a direct child of a class definition
    found anywhere in the tree (nested classes included); functions outside
    classes and functions nested in methods get no record. *)
Theorem methods_are_direct_functions_of_classes
  (file_path content : str) (tree : node) (m : Method.t) :
  In m (Analysis.methods (analyze_tree word lower file_path content tree))
  <-> exists c item,
        In c (preorder tree) /\ is_ClassDef c = true
        /\ In item (body_of c) /\ is_FunctionDef item = true
        /\ m = analyze_method word item content.
Proof. apply report_methods_In. Qed.

Lemma sum_zero (xs : list Z) :
  Forall (fun x => 0 <= x)%Z xs -> (sum xs <= 0)%Z ->
  Forall (fun x => x = 0%Z) xs.
Proof.
  induction 1 as [|x xs Hx Hxs IH]; intros H; [constructor|].
  rewrite sum_cons in H. pose proof (sum_nonneg Hxs).
  constructor; [lia | apply IH; lia].
Qed.

Lemma sum_app (xs ys : list Z) : sum (xs ++ ys) = (sum xs + sum ys)%Z.
Proof.
  unfold sum at 1. rewrite fold_left_app. fold (sum xs).
  apply fold_add_shift.
Qed.

Lemma keyword_strategy (analysis : Analysis.t) (content : str) :
  determine_parsing_strategy lower analysis content
  = if contains (lit "schema") (lower content)
       || contains (lit "json") (lower content)
    then if (sum (map (fun method => len (Method.selectors method))
                      (Analysis.methods analysis)) >? 0)%Z
         then lit "mixed" else lit "schema"
    else lit "selectors".
Proof. reflexivity. Qed.

(** X6.  When the report's strategy is ["schema"], no method of the report
    has any selector or any schema property: the tag only arises when the
    file text mentions a keyword and nothing was extracted from the
    methods. *)
Theorem schema_strategy_means_nothing_extracted
  (file_path content : str) (tree : node) :
  Analysis.parsingStrategy (analyze_tree word lower file_path content tree)
  = lit "schema" ->
  Forall (fun m => Method.selectors m = []
                   /\ Method.schemaProperties m = [])
    (Analysis.methods (analyze_tree word lower file_path content tree)).
Proof.
  intros H.
  destruct (analyze_tree_fields word lower file_path content tree)
    as (_ & _ & _ & _ & _ & Hs & _).
  rewrite Hs, keyword_strategy in H.
  set (r := analyze_tree word lower file_path content tree) in *.
  destruct (contains _ _ || contains _ _);
    [|vm_compute in H; discriminate H].
  destruct (Z.gtb_spec
              (sum (map (fun method => len (Method.selectors method))
                        (Analysis.methods r))) 0) as [G|G];
    [vm_compute in H; discriminate H|].
  apply sum_zero in G.
  - apply Forall_forall. intros m Hm.
    assert (S : Method.selectors m = []).
    { rewrite Forall_forall in G.
      specialize (G (len (Method.selectors m))).
      assert (E : len (Method.selectors m) = 0%Z)
        by (apply G, in_map_iff; now exists m).
      unfold len in E. destruct (Method.selectors m); [reflexivity|].
      simpl in E. lia. }
    split; [exact S|].
    apply report_methods_In in Hm as (c & item & _ & _ & _ & _ & ->).
    destruct (method_lists item content) as (_ & _ & L & _).
    cbv zeta in L. rewrite S in L.
    destruct (Method.schemaProperties _); [reflexivity | simpl in L; lia].
  - apply Forall_forall. intros x Hx.
    apply in_map_iff in Hx as (m & <- & _). unfold len. lia.
Qed.

(** X7.  When the lowered file text contains ["schema"] or ["json"] and some
    method of some class holds a string literal with a letter, the report's
    strategy is ["mixed"]. *)
Theorem keyword_and_lettered_literal_give_mixed
  (file_path content : str) (tree c item : node) (s : str) :
  contains (lit "schema") (lower content)
  || contains (lit "json") (lower content) = true ->
  In c (preorder tree) -> is_ClassDef c = true ->
  In item (body_of c) -> is_FunctionDef item = true ->
  In (Str s) (preorder item) -> has_letter s = true ->
  Analysis.parsingStrategy (analyze_tree word lower file_path content tree)
  = lit "mixed".
Proof.
  intros K Hc Hk Hi Hf Hs Hl.
  destruct (analyze_tree_fields word lower file_path content tree)
    as (_ & _ & _ & _ & _ & E & _).
  rewrite E, keyword_strategy, K.
  set (r := analyze_tree word lower file_path content tree).
  assert (Hm : In (analyze_method word item content) (Analysis.methods r)).
  { apply report_methods_In. now exists c, item. }
  assert (P : (0 < len (Method.selectors
                          (analyze_method word item content)))%Z).
  { destruct (method_lists item content) as (-> & _). cbv zeta.
    assert (In s (filter (fun s => has_letter s || has_class_or_id word s)
                    (literals (walk item)))).
    { apply filter_In. split; [|now rewrite Hl].
      unfold literals. apply in_flat_map. exists (Str s).
      split; [now apply walk_In | now left]. }
    unfold len. destruct (filter _ _); [contradiction | simpl; lia]. }
  assert (T : (0 < sum (map (fun method => len (Method.selectors method))
                            (Analysis.methods r)))%Z).
  { apply in_split in Hm as (l1 & l2 & ->).
    rewrite map_app, map_cons, sum_app, sum_cons.
    pose proof (selector_count_nonneg l1) as N1.
    pose proof (selector_count_nonneg l2) as N2.
    cbv beta in *. lia. }
  destruct (Z.gtb_spec
              (sum (map (fun method => len (Method.selectors method))
                        (Analysis.methods r))) 0); [reflexivity | lia].
Qed.

Lemma last_or_default {A} (l : list A) (d : A) :
  last l d = d \/ In (last l d) l.
Proof.
  induction l as [|x l IH]; [now left|].
  destruct l as [|y l]; [right; now left|].
  change (last (x :: y :: l) d) with (last (y :: l) d).
  destruct IH as [E|H]; [right; right|right; now right].
  destruct l as [|z l]; [now left|].
  assert (X : forall (k : list A) a, In (last (a :: k) d) (a :: k)).
  { induction k as [|b k IHk]; intros a; [now left|].
    change (last (a :: b :: k) d) with (last (b :: k) d).
    right. apply IHk. }
  apply X.
Qed.

Lemma first_return_str_In (l : list node) (s : str) :
  first_return_str l = Some s -> In (Return (Some (Str s))) l.
Proof.
  induction l as [|x l IH]; [discriminate|].
  destruct x as [| | | | |[[| | | | | |t|]|]| |];
    try (intros H; right; now apply IH).
  cbn. intros [= ->]. now left.
Qed.

(** X9.  A non-empty [hostName] in a report is always a string literal that
    a [return] statement returns inside a function named [host] that is a
    direct child of a class of the tree; it is never taken from another
    method or from a function outside classes. *)
Theorem hostName_is_returned_by_a_host_method
  (file_path content : str) (tree : node) :
  Analysis.hostName (analyze_tree word lower file_path content tree) <> [] ->
  exists c item,
    In c (preorder tree) /\ is_ClassDef c = true
    /\ In item (body_of c) /\ is_FunctionDef item = true
    /\ name_of item = lit "host"
    /\ In (Return (Some (Str (Analysis.hostName
            (analyze_tree word lower file_path content tree)))))
          (preorder item).
Proof.
  destruct (analyze_tree_fields word lower file_path content tree)
    as (_ & -> & _).
  intros H.
  destruct (last_or_default
              (flat_map (fun c => flat_map host_values (body_of c))
                        (classes tree)) []) as [E|Hin]; [congruence|].
  set (h := last _ _) in *.
  apply in_flat_map in Hin as (c & Hc & Hin).
  apply in_flat_map in Hin as (item & Hi & Hh).
  apply filter_In in Hc as [Hc Hk]. exists c, item.
  unfold host_values in Hh.
  destruct (is_FunctionDef item) eqn:Hf; [|contradiction].
  destruct (eqb (name_of item) (lit "host")) eqn:Hn; [|contradiction].
  cbn [andb] in Hh.
  destruct (extract_host_name item) as [h'|] eqn:Hx; [|contradiction].
  destruct (nonempty h'); [|contradiction]. destruct Hh as [->|[]].
  repeat split; auto.
  - now apply walk_In.
  - now apply eqb_eq.
  - apply walk_In. now apply first_return_str_In.
Qed.

Lemma sizes_nil (l : list node) : sizes l = 0 -> l = [].
Proof.
  destruct l as [|x l]; [reflexivity|].
  rewrite sizes_cons. pose proof (size_pos x). lia.
Qed.

(** The walk of a node starts with the node and its direct children. *)
Lemma walk_children (n : node) :
  exists deeper, walk n = n :: iter_child_nodes n ++ deeper.
Proof.
  rewrite walk_levels, size_eq. cbn [levels_upto flat_map app].
  rewrite app_nil_r.
  destruct (sizes (iter_child_nodes n)) as [|k] eqn:E.
  - apply sizes_nil in E. rewrite E. now exists [].
  - cbn [levels_upto]. eexists. reflexivity.
Qed.

(** X10.  In the body of a method, a [return] of a string literal that is a
    direct statement of the method decides [extract_host_name], even when an
    earlier statement holds a nested [return] of another literal: the walk
    is breadth-first, so the direct statements come before anything nested
    in them. *)
Theorem direct_return_decides_host_name
  (name : str) (lineno end_lineno : nat) (args : node)
  (before after decorator_list type_params : list node)
  (returns : option node) (s : str) :
  (forall t, args <> Return (Some (Str t))) ->
  (forall t, ~ In (Return (Some (Str t))) before) ->
  extract_host_name
    (FunctionDef name lineno end_lineno args
       (before ++ Return (Some (Str s)) :: after)
       decorator_list returns type_params)
  = Some s.
Proof.
  intros Ha Hb. unfold extract_host_name.
  destruct (walk_children
              (FunctionDef name lineno end_lineno args
                 (before ++ Return (Some (Str s)) :: after)
                 decorator_list returns type_params)) as [deeper ->].
  cbn [iter_child_nodes].
  set (f := FunctionDef _ _ _ _ _ _ _ _).
  replace (f :: (args :: (before ++ Return (Some (Str s)) :: after)
                          ++ decorator_list ++ opt_list returns
                          ++ type_params) ++ deeper)
    with ((f :: args :: before)
          ++ Return (Some (Str s))
             :: (after ++ decorator_list ++ opt_list returns ++ type_params)
                ++ deeper)
    by (cbn [app]; now rewrite <- !app_assoc).
  rewrite first_return_str_skip; [reflexivity|].
  intros t [H|[H|H]]; [discriminate H | now apply (Ha t) | now apply (Hb t)].
Qed.

End Reports.

(** ** The captured body of a method *)

Section Bodies.

Set Default Proof Using "Type".

Variable word : char -> bool.

Lemma split_lines_acc_nonnil (cur s : str) : split_lines_acc cur s <> [].
Proof.
  revert cur; induction s as [|c s IH]; intros cur; simpl.
  - discriminate.
  - destruct (N.eqb c 10); [discriminate | apply IH].
Qed.

Lemma join_lines_cons (l : str) (rest : list str) :
  rest <> [] -> join_lines (l :: rest) = l ++ 10%N :: join_lines rest.
Proof. destruct rest; [congruence | reflexivity]. Qed.

Lemma join_split_acc (cur s : str) :
  join_lines (split_lines_acc cur s) = rev cur ++ s.
Proof.
  revert cur; induction s as [|c s IH]; intros cur; simpl.
  - now rewrite app_nil_r.
  - destruct (N.eqb_spec c 10) as [->|_].
    + rewrite join_lines_cons by apply split_lines_acc_nonnil.
      now rewrite IH.
    + rewrite IH. simpl. now rewrite <- app_assoc.
Qed.

(** Splitting a text into lines and joining them gives the text back. *)
Lemma join_split (s : str) : join_lines (split_lines s) = s.
Proof. apply join_split_acc. Qed.

Lemma join_lines_app (a b : list str) :
  a <> [] -> b <> [] ->
  join_lines (a ++ b) = join_lines a ++ 10%N :: join_lines b.
Proof.
  induction a as [|x a IH]; intros Ha Hb; [congruence|].
  destruct a as [|y a].
  - simpl app. now rewrite join_lines_cons.
  - change ((x :: y :: a) ++ b) with (x :: (y :: a) ++ b).
    rewrite join_lines_cons by discriminate.
    rewrite IH by (auto; discriminate).
    rewrite (@join_lines_cons x (y :: a)) by discriminate.
    now rewrite <- app_assoc.
Qed.

Lemma join_lines_part (l1 mid l3 : list str) :
  exists a b, join_lines (l1 ++ mid ++ l3) = a ++ join_lines mid ++ b.
Proof.
  destruct mid as [|m mid].
  - exists (join_lines (l1 ++ l3)), []. simpl. now rewrite app_nil_r.
  - destruct l1 as [|x l1], l3 as [|z l3].
    + exists [], []. now rewrite !app_nil_l, !app_nil_r.
    + exists [], (10%N :: join_lines (z :: l3)). rewrite !app_nil_l.
      apply join_lines_app; discriminate.
    + exists (join_lines (x :: l1) ++ [10%N]), []. rewrite !app_nil_r.
      rewrite join_lines_app by discriminate. now rewrite <- app_assoc.
    + exists (join_lines (x :: l1) ++ [10%N]),
             (10%N :: join_lines (z :: l3)).
      rewrite join_lines_app by discriminate.
      rewrite join_lines_app by discriminate.
      now rewrite <- !app_assoc.
Qed.

Lemma slice_part {A} (i j : nat) (l : list A) :
  exists l1 l3, l = l1 ++ slice i j l ++ l3.
Proof.
  exists (firstn i l), (skipn (j - i) (skipn i l)). unfold slice.
  now rewrite (firstn_skipn (j - i)), firstn_skipn.
Qed.

Lemma analyze_method_body (method_node : node) (content : str) :
  Method.body (analyze_method word method_node content)
  = if negb (lineno_of method_node =? 0)
       && negb (end_lineno_of method_node =? 0)
    then join_lines (slice (lineno_of method_node - 1)
                           (end_lineno_of method_node)
                           (split_lines content))
    else [].
Proof.
  unfold analyze_method.
  rewrite fold_scan_selector, fold_scan_schema_property.
  destruct (mem (name_of method_node) _);
    [|destruct (mem (name_of method_node) _)];
    destruct (negb (lineno_of method_node =? 0)
              && negb (end_lineno_of method_node =? 0));
    reflexivity.
Qed.

Lemma method_body_part (method_node : node) (content : str) :
  exists a b,
    content = a ++ Method.body (analyze_method word method_node content)
                ++ b.
Proof.
  rewrite analyze_method_body.
  destruct (negb (lineno_of method_node =? 0)
            && negb (end_lineno_of method_node =? 0)).
  - destruct (slice_part (lineno_of method_node - 1)
                (end_lineno_of method_node) (split_lines content))
      as (l1 & l3 & E).
    destruct (join_lines_part l1
                (slice (lineno_of method_node - 1)
                   (end_lineno_of method_node) (split_lines content)) l3)
      as (a & b & J).
    rewrite <- E, join_split in J. now exists a, b.
  - exists [], content. reflexivity.
Qed.

(** X11.  The body recorded for a method is always a contiguous part of the
    file text, whatever line numbers the node carries; it is empty when a
    line number is 0, when the last line comes before the first, or when
    the first line lies beyond the end of the file. *)
Theorem method_body_is_part_of_content (method_node : node) (content : str) :
  (exists a b,
     content = a ++ Method.body (analyze_method word method_node content)
                 ++ b)
  /\ (lineno_of method_node = 0
      \/ end_lineno_of method_node = 0
      \/ end_lineno_of method_node < lineno_of method_node
      \/ length (split_lines content) < lineno_of method_node ->
      Method.body (analyze_method word method_node content) = []).
Proof.
  split; [apply method_body_part|].
  intros H. rewrite analyze_method_body.
  destruct (Nat.eqb_spec (lineno_of method_node) 0) as [E1|N1];
    [reflexivity|].
  destruct (Nat.eqb_spec (end_lineno_of method_node) 0) as [E2|N2];
    [reflexivity|].
  cbn [negb andb]. unfold slice.
  destruct H as [H|[H|[H|H]]]; try contradiction.
  - replace (end_lineno_of method_node - (lineno_of method_node - 1))
      with 0 by lia.
    reflexivity.
  - rewrite skipn_all2 by lia. now rewrite firstn_nil.
Qed.

Lemma split_acc_one_line (cur l : str) :
  one_line l -> split_lines_acc cur l = [rev cur ++ l].
Proof.
  unfold one_line. revert cur; induction l as [|c l IH]; intros cur H; simpl.
  - now rewrite app_nil_r.
  - destruct (N.eqb_spec c 10) as [->|_]; [elim H; now left|].
    rewrite IH by (intros K; apply H; now right).
    simpl. now rewrite <- app_assoc.
Qed.

Lemma split_acc_line (cur l rest : str) :
  one_line l ->
  split_lines_acc cur (l ++ 10%N :: rest)
  = (rev cur ++ l) :: split_lines_acc [] rest.
Proof.
  unfold one_line. revert cur; induction l as [|c l IH]; intros cur H; simpl.
  - now rewrite app_nil_r.
  - destruct (N.eqb_spec c 10) as [->|_]; [elim H; now left|].
    rewrite IH by (intros K; apply H; now right).
    simpl. now rewrite <- app_assoc.
Qed.

(** Joining lines without line break and splitting gives the lines back. *)
Lemma split_join (ls : list str) :
  ls <> [] -> Forall one_line ls -> split_lines (join_lines ls) = ls.
Proof.
  unfold split_lines. induction ls as [|l ls IH]; intros Hn Hl; [congruence|].
  inversion Hl as [|? ? H1 H2]; subst.
  destruct ls as [|l' ls].
  - simpl. now rewrite split_acc_one_line.
  - rewrite join_lines_cons by discriminate.
    rewrite split_acc_line by assumption.
    simpl rev. simpl app at 1. f_equal. apply IH; [discriminate | assumption].
Qed.

Lemma split_lines_acc_one_line (cur s : str) :
  one_line cur -> Forall one_line (split_lines_acc cur s).
Proof.
  unfold one_line.
  revert cur; induction s as [|c s IH]; intros cur H; simpl.
  - constructor; [|constructor]. now rewrite <- in_rev.
  - destruct (N.eqb_spec c 10) as [->|Hc].
    + constructor; [now rewrite <- in_rev | apply IH; intros []].
    + apply IH. intros [K|K]; [congruence | auto].
Qed.

Lemma Forall_slice {A} (P : A -> Prop) (i j : nat) (l : list A) :
  Forall P l -> Forall P (slice i j l).
Proof.
  intros H. destruct (slice_part i j l) as (l1 & l3 & E).
  rewrite E in H. apply Forall_app in H as [_ H].
  now apply Forall_app in H as [H _].
Qed.

Lemma slice_length {A} (i j : nat) (l : list A) :
  j <= length l -> length (slice i j l) = j - i.
Proof.
  intros H. unfold slice. rewrite length_firstn, length_skipn. lia.
Qed.

(** X12.  When the node's line numbers lie inside the file
    ([1 <= lineno <= end_lineno <=] number of lines), the recorded body is
    made of exactly the lines [lineno] to [end_lineno] of the file text:
    [end_lineno - lineno + 1] lines, unchanged. *)
Theorem method_body_is_its_lines (method_node : node) (content : str) :
  1 <= lineno_of method_node ->
  lineno_of method_node <= end_lineno_of method_node ->
  end_lineno_of method_node <= length (split_lines content) ->
  split_lines (Method.body (analyze_method word method_node content))
  = slice (lineno_of method_node - 1) (end_lineno_of method_node)
      (split_lines content)
  /\ length (split_lines
               (Method.body (analyze_method word method_node content)))
     = end_lineno_of method_node - lineno_of method_node + 1.
Proof.
  intros H1 H2 H3. rewrite analyze_method_body.
  destruct (Nat.eqb_spec (lineno_of method_node) 0) as [E|_]; [lia|].
  destruct (Nat.eqb_spec (end_lineno_of method_node) 0) as [E|_]; [lia|].
  cbn [negb andb].
  assert (L : length (slice (lineno_of method_node - 1)
                        (end_lineno_of method_node) (split_lines content))
              = end_lineno_of method_node - lineno_of method_node + 1)
    by (rewrite slice_length by assumption; lia).
  rewrite split_join.
  - split; [reflexivity | exact L].
  - intros E. rewrite E in L. simpl in L. lia.
  - apply Forall_slice, split_lines_acc_one_line. intros [].
Qed.

End Bodies.

(** ** Running the script *)

Section Runs.

Set Default Proof Using "Type".

Variable word : char -> bool.
Variable lower : str -> str.
Variable parse : str -> option node.
Variable dumps : Analysis.t -> str.
Variable traceback : exn -> str.
Variable exception_ignored : str.


(** The run with one argument, case by case. *)
Lemma run_one_argument (prog path : str) (w : world) :
  run word lower parse dumps traceback exception_ignored [prog; path] w
  = match files w path with
    | None =>
        (mkWorld (files w) (stdout w)
           (stderr w ++ [traceback (ReadError path)]) (opened w ++ [path])
           (device w) [],
         1%Z)
    | Some content =>
        match parse content with
        | None =>
            (mkWorld (files w) (stdout w)
               (stderr w ++ [traceback ParseError]) (opened w ++ [path])
               (device w) [],
             1%Z)
        | Some tree =>
            match device w with
            | Writable =>
                (mkWorld (files w)
                   (stdout w
                    ++ [dumps (analyze_tree word lower path content tree)])
                   (stderr w) (opened w ++ [path]) Writable [],
                 0%Z)
            | Closed =>
                (mkWorld (files w) (stdout w) (stderr w)
                   (opened w ++ [path]) Closed [],
                 0%Z)
            | FailsAtExit =>
                (mkWorld (files w) (stdout w)
                   (stderr w ++ [exception_ignored]) (opened w ++ [path])
                   FailsAtExit [],
                 120%Z)
            | FailsInPrintAndAtExit =>
                (mkWorld (files w) (stdout w)
                   (stderr w ++ [traceback WriteError; exception_ignored])
                   (opened w ++ [path]) FailsInPrintAndAtExit [],
                 120%Z)
            | FailsInPrint =>
                (mkWorld (files w) (stdout w)
                   (stderr w ++ [traceback WriteError])
                   (opened w ++ [path]) FailsInPrint [],
                 1%Z)
            end
        end
    end.
Proof.
  unfold run, main.
  change (negb (len [prog; path] =? 2)%Z) with false. cbv iota.
  unfold analyze_scraper, bind, read_text, ast_parse, print, ret, raise,
    start, finalize.
  cbn [nth files stdout stderr opened device pending].
  destruct (files w path) as [content|]; [|reflexivity].
  destruct (parse content) as [tree|]; [|reflexivity].
  destruct (device w); cbn; rewrite <- ?app_assoc; reflexivity.
Qed.


(** X14.  Given the script name and one path, when the file cannot be read
    or its text does not parse, the run prints nothing on standard output
    (there is no partial report), reports the exception on the error
    stream and ends with exit status 1; the path has been opened. *)
Theorem failed_run_prints_no_report (prog path : str) (w : world) :
  files w path = None
  \/ (exists content, files w path = Some content /\ parse content = None) ->
  exists e,
    (e = ReadError path \/ e = ParseError)
    /\ run word lower parse dumps traceback exception_ignored [prog; path] w
       = (mkWorld (files w) (stdout w) (stderr w ++ [traceback e])
            (opened w ++ [path]) (device w) [],
          1%Z).
Proof.
  intros [Hf | (content & Hf & Hp)]; rewrite run_one_argument;
    rewrite Hf, ?Hp.
  - exists (ReadError path). split; [now left | reflexivity].
  - exists ParseError. split; [now right | reflexivity].
Qed.


End Runs.

(** ** The tier grows with the methods *)

Section Tiers.

Set Default Proof Using "Type".

(** X16.  Appending a method whose complexity score is not negative never
    lowers the tier: ["simple"] may become ["medium"] or ["complex"], and
    ["medium"] may become ["complex"], never the reverse. *)
Theorem appending_method_never_lowers_tier
  (analysis : Analysis.t) (m : Method.t) :
  (0 <= Method.complexity m)%Z ->
  tier_rank (determine_complexity analysis)
  <= tier_rank (determine_complexity (Analysis.append_method analysis m)).
Proof.
  intros H. unfold determine_complexity. cbn [Analysis.methods
    Analysis.append_method].
  rewrite map_app, sum_app. cbn [map]. rewrite sum_cons.
  change (sum []) with 0%Z. unfold len. rewrite length_app. cbn [length].
  set (t := sum (map Method.complexity (Analysis.methods analysis))).
  set (n := length (Analysis.methods analysis)).
  destruct (Z.gtb_spec t 20), (Z.gtb_spec (Z.of_nat n) 15),
    (Z.gtb_spec t 10), (Z.gtb_spec (Z.of_nat n) 8),
    (Z.gtb_spec (t + (Method.complexity m + 0)) 20),
    (Z.gtb_spec (Z.of_nat (n + 1)) 15),
    (Z.gtb_spec (t + (Method.complexity m + 0)) 10),
    (Z.gtb_spec (Z.of_nat (n + 1)) 8);
    cbn [orb]; try lia; vm_compute; lia.
Qed.

End Tiers.

(** ** Every import is listed *)

Section ImportsListed.

Set Default Proof Using "Type".

Variable word : char -> bool.
Variable lower : str -> str.

(** X17.  The imports list holds, once per occurrence, what every import
    statement anywhere in the tree contributes (inside functions, classes
    and blocks too): it is a rearrangement of the list taken in source
    order. *)
Theorem imports_are_a_rearrangement_of_source_order
  (file_path content : str) (tree : node) :
  Permutation
    (Analysis.imports (analyze_tree word lower file_path content tree))
    (flat_map import_names (preorder tree)).
Proof.
  destruct (analyze_tree_fields word lower file_path content tree)
    as (_ & _ & _ & -> & _).
  apply Permutation_flat_map, walk_perm.
Qed.

End ImportsListed.

(** ** The further properties at sample inputs *)

Section AtMoreSamples.

Lemma hover_is_matched_by_element_pattern :
  search (css_pseudo ascii_word) (lit "a:hover") = true
  /\ search (css_element ascii_word) (lit "a:hover") = true.
Proof.
  assert (H : search (css_pseudo ascii_word) (lit "a:hover") = true)
    by reflexivity.
  split; [exact H|].
  exact (proj1 (pseudo_pattern_is_redundant ascii_word (lit "a:hover")) H).
Defined.

Lemma itemprop_name_is_both :
  extract_schema_property (lit "[itemprop=name]") = Some (lit "name")
  /\ extract_css_selector ascii_word (lit "[itemprop=name]")
     = Some (lit "[itemprop=name]").
Proof.
  assert (H : extract_schema_property (lit "[itemprop=name]")
              = Some (lit "name")) by reflexivity.
  split; [exact H|].
  exact (proj1 (@schema_property_text_is_selector ascii_word
                  (lit "[itemprop=name]") (lit "name") H)).
Defined.

Lemma number_only_scraper_has_nothing_extracted :
  Analysis.parsingStrategy
    (analyze_tree ascii_word ascii_lower (lit "time.py") json_time_source
       json_time_tree) = lit "schema"
  /\ Forall (fun m => Method.selectors m = []
                      /\ Method.schemaProperties m = [])
       (Analysis.methods
          (analyze_tree ascii_word ascii_lower (lit "time.py")
             json_time_source json_time_tree)).
Proof.
  assert (H : Analysis.parsingStrategy
                (analyze_tree ascii_word ascii_lower (lit "time.py")
                   json_time_source json_time_tree) = lit "schema")
    by reflexivity.
  split; [exact H|].
  exact (@schema_strategy_means_nothing_extracted ascii_word ascii_lower
           (lit "time.py") json_time_source json_time_tree H).
Defined.

Lemma json_title_scraper_is_mixed :
  contains (lit "schema") (ascii_lower json_title_source)
  || contains (lit "json") (ascii_lower json_title_source) = true
  /\ In json_title_class (preorder json_title_tree)
  /\ is_ClassDef json_title_class = true
  /\ In json_title_method (body_of json_title_class)
  /\ is_FunctionDef json_title_method = true
  /\ In (Str (lit "h1")) (preorder json_title_method)
  /\ has_letter (lit "h1") = true
  /\ Analysis.parsingStrategy
       (analyze_tree ascii_word ascii_lower (lit "title.py")
          json_title_source json_title_tree) = lit "mixed".
Proof.
  assert (H1 : contains (lit "schema") (ascii_lower json_title_source)
               || contains (lit "json") (ascii_lower json_title_source)
               = true) by reflexivity.
  assert (H2 : In json_title_class (preorder json_title_tree))
    by (right; right; right; now left).
  assert (H3 : is_ClassDef json_title_class = true) by reflexivity.
  assert (H4 : In json_title_method (body_of json_title_class))
    by now left.
  assert (H5 : is_FunctionDef json_title_method = true) by reflexivity.
  assert (H6 : In (Str (lit "h1")) (preorder json_title_method))
    by (right; right; right; right; now left).
  assert (H7 : has_letter (lit "h1") = true) by reflexivity.
  repeat (split; [assumption|]).
  exact (@keyword_and_lettered_literal_give_mixed ascii_word ascii_lower
           (lit "title.py") json_title_source json_title_tree
           json_title_class json_title_method (lit "h1")
           H1 H2 H3 H4 H5 H6 H7).
Defined.

Lemma foo_hostName_comes_from_host :
  Analysis.hostName foo_report <> []
  /\ exists c item,
       In c (preorder foo_tree) /\ is_ClassDef c = true
       /\ In item (body_of c) /\ is_FunctionDef item = true
       /\ name_of item = lit "host"
       /\ In (Return (Some (Str (Analysis.hostName foo_report))))
            (preorder item).
Proof.
  assert (H : Analysis.hostName foo_report <> []) by discriminate.
  split; [exact H|].
  exact (@hostName_is_returned_by_a_host_method ascii_word ascii_lower
           (lit "foo.py") foo_source foo_tree H).
Defined.

Lemma branch_return_is_passed_over :
  (forall t, arguments_self <> Return (Some (Str t)))
  /\ (forall t, ~ In (Return (Some (Str t))) branch_before_return)
  /\ extract_host_name host_with_branch = Some (lit "example.com").
Proof.
  assert (H1 : forall t, arguments_self <> Return (Some (Str t)))
    by discriminate.
  assert (H2 : forall t, ~ In (Return (Some (Str t))) branch_before_return).
  { intros t [H|[]]. discriminate H. }
  split; [exact H1|]. split; [exact H2|].
  exact (@direct_return_decides_host_name (lit "host") 2 5 arguments_self
           branch_before_return [] [] [] None (lit "example.com") H1 H2).
Defined.

Lemma unnumbered_method_has_no_body :
  (lineno_of unnumbered_method = 0
   \/ end_lineno_of unnumbered_method = 0
   \/ end_lineno_of unnumbered_method < lineno_of unnumbered_method
   \/ length (split_lines json_title_source) < lineno_of unnumbered_method)
  /\ Method.body (analyze_method ascii_word unnumbered_method
                    json_title_source) = [].
Proof.
  assert (H : lineno_of unnumbered_method = 0
              \/ end_lineno_of unnumbered_method = 0
              \/ end_lineno_of unnumbered_method
                 < lineno_of unnumbered_method
              \/ length (split_lines json_title_source)
                 < lineno_of unnumbered_method)
    by (left; reflexivity).
  split; [exact H|].
  exact (proj2 (@method_body_is_part_of_content ascii_word unnumbered_method
                  json_title_source) H).
Defined.

Lemma foo_host_body_has_two_lines :
  1 <= lineno_of (host_method "foo.com" 2)
  /\ lineno_of (host_method "foo.com" 2)
     <= end_lineno_of (host_method "foo.com" 2)
  /\ end_lineno_of (host_method "foo.com" 2)
     <= length (split_lines foo_source)
  /\ split_lines
       (Method.body
          (analyze_method ascii_word (host_method "foo.com" 2) foo_source))
     = [lit "    def host(self):"; lit "        return 'foo.com'"].
Proof.
  assert (H1 : 1 <= lineno_of (host_method "foo.com" 2))
    by (vm_compute; lia).
  assert (H2 : lineno_of (host_method "foo.com" 2)
               <= end_lineno_of (host_method "foo.com" 2))
    by (vm_compute; lia).
  assert (H3 : end_lineno_of (host_method "foo.com" 2)
               <= length (split_lines foo_source))
    by (vm_compute; lia).
  repeat (split; [assumption|]).
  rewrite (proj1 (@method_body_is_its_lines ascii_word
                    (host_method "foo.com" 2) foo_source H1 H2 H3)).
  reflexivity.
Defined.


Lemma missing_file_run_fails :
  (files empty_world (lit "foo.py") = None
   \/ exists content,
        files empty_world (lit "foo.py") = Some content
        /\ parse_as foo_tree content = None)
  /\ exists e,
       (e = ReadError (lit "foo.py") \/ e = ParseError)
       /\ run ascii_word ascii_lower (parse_as foo_tree) no_dumps
            no_traceback no_message
            [lit "analyze_scraper.py"; lit "foo.py"] empty_world
          = (mkWorld (files empty_world) [] [no_traceback e]
               [lit "foo.py"] Writable [], 1%Z).
Proof.
  assert (H : files empty_world (lit "foo.py") = None
              \/ exists content,
                   files empty_world (lit "foo.py") = Some content
                   /\ parse_as foo_tree content = None)
    by (left; reflexivity).
  split; [exact H|].
  exact (@failed_run_prints_no_report ascii_word ascii_lower
           (parse_as foo_tree) no_dumps no_traceback no_message
           (lit "analyze_scraper.py") (lit "foo.py") empty_world H).
Defined.

Lemma sixteenth_method_makes_complex :
  (0 <= Method.complexity one_more_method)%Z
  /\ tier_rank (determine_complexity boundary_analysis) = 1
  /\ tier_rank (determine_complexity
                  (Analysis.append_method boundary_analysis
                     one_more_method)) = 2
  /\ tier_rank (determine_complexity boundary_analysis)
     <= tier_rank (determine_complexity
                     (Analysis.append_method boundary_analysis
                        one_more_method)).
Proof.
  assert (H : (0 <= Method.complexity one_more_method)%Z)
    by discriminate.
  split; [exact H|]. split; [reflexivity|]. split; [reflexivity|].
  exact (@appending_method_never_lowers_tier boundary_analysis
           one_more_method H).
Defined.

End AtMoreSamples.

(** ** The tags of a report *)

Section Tags.

Set Default Proof Using "Type".

Variable word : char -> bool.
Variable lower : str -> str.

(** X18.  Whatever the file, the report carries one of the three tiers, one
    of the three strategies and, for each method, one of the three return
    types; the defaults written when the report is created are always
    replaced by computed values of these kinds. *)
Theorem report_tags_are_enumerated
  (file_path content : str) (tree : node) :
  In (Analysis.complexity (analyze_tree word lower file_path content tree))
     [lit "simple"; lit "medium"; lit "complex"]
  /\ In (Analysis.parsingStrategy
           (analyze_tree word lower file_path content tree))
        [lit "schema"; lit "selectors"; lit "mixed"]
  /\ Forall (fun m => In (Method.returnType m)
                        [lit "string"; lit "string[]"; lit "number"])
       (Analysis.methods (analyze_tree word lower file_path content tree)).
Proof.
  destruct (analyze_tree_fields word lower file_path content tree)
    as (_ & _ & _ & _ & Hc & Hs & _).
  split; [|split].
  - rewrite Hc. unfold determine_complexity.
    destruct (_ || _); [|destruct (_ || _)]; cbn [In]; auto.
  - rewrite Hs, keyword_strategy.
    destruct (_ || _); [destruct (_ >? _)%Z|]; cbn [In]; auto.
  - apply Forall_forall. intros m Hm.
    apply report_methods_In in Hm as (c & item & _ & _ & _ & _ & ->).
    rewrite analyze_method_returnType.
    destruct (mem _ _); [|destruct (mem _ _)]; cbn [In]; auto.
Qed.

End Tags.
